(** * Portais da Consciencia: the state store (src/types.ts, store half)

    A shallow embedding of the store's pure helpers and synchronous actions:
    [calculateUcs], [getPicRecommendation], the quota-aware storage wrapper
    [safeLocalStorage], and the actions [endSession], [logActivity],
    [handleScheduleCompletion] and the guide actions.

    Conventions of the embedding.
    - A JavaScript [number] holding a score is an exact rational ([Q]);
      a timestamp or a counter is an integer ([Z]).
    - [Date.now()] is an explicit argument [now] of the action reading it.
    - The local time zone of [Date] is a constant offset from UTC.
    - The browser accepts or rejects a write to [localStorage] by the text
      written and the other items of the origin. *)

From Stdlib Require Import ZArith QArith Qround Qabs List String Bool Lia Lqa.
From Stdlib Require Import Sorted Permutation.
From Equations Require Import Equations.
Import ListNotations.

Set Implicit Arguments.

Local Open Scope Q_scope.

(* ===================================================================== *)
(** ** Data model (src/types.ts, type half)                               *)
(* ===================================================================== *)

Inductive AgentId : Type :=
| COHERENCE
| SELF_KNOWLEDGE
| HEALTH
| EMOTIONAL_FINANCE
| INVESTMENTS
| GUIDE.

Inductive ToolId : Type :=
| meditation
| content_analyzer
| guided_prayer
| prayer_pills
| dissonance_analyzer
| therapeutic_journal
| quantum_simulator
| phi_frontier_radar
| dosh_diagnosis
| wellness_visualizer
| belief_resignifier
| emotional_spending_map
| risk_calculator
| archetype_journey
| verbal_frequency_analysis
| routine_aligner
| scheduled_session.

Definition ToolId_eq_dec (a b : ToolId) : {a = b} + {a <> b}.
Proof. decide equality. Defined.

Definition ToolId_eqb (a b : ToolId) : bool :=
  if ToolId_eq_dec a b then true else false.

(** [interface DimensionState]: both fields are documented as 0-100. *)
Record DimensionState : Type := mkDim {
  coerencia : Q;
  dissonancia : Q
}.

(** [interface CoherenceVector]. *)
Record CoherenceVector : Type := mkVector {
  alinhamentoPAC : Q;
  proposito : DimensionState;
  mental : DimensionState;
  relacional : DimensionState;
  emocional : DimensionState;
  somatico : DimensionState;
  eticoAcao : DimensionState;
  recursos : DimensionState
}.

(** [keyof Omit<CoherenceVector, 'alinhamentoPAC'>], and the indexing
    [vector[dim]] it is used for. *)
Inductive DimensionKey : Type :=
| K_proposito
| K_mental
| K_relacional
| K_emocional
| K_somatico
| K_eticoAcao
| K_recursos.

Definition vget (vector : CoherenceVector) (k : DimensionKey) : DimensionState :=
  match k with
  | K_proposito => proposito vector
  | K_mental => mental vector
  | K_relacional => relacional vector
  | K_emocional => emocional vector
  | K_somatico => somatico vector
  | K_eticoAcao => eticoAcao vector
  | K_recursos => recursos vector
  end.

(** The canonical order of the dimensions: purpose, mental, relational,
    emotional, somatic, ethical action, resources. *)
Definition canonical_order : list DimensionKey :=
  [K_proposito; K_mental; K_relacional; K_emocional; K_somatico;
   K_eticoAcao; K_recursos].



Definition nonneg_dissonance (v : CoherenceVector) : Prop :=
  forall k, 0 <= dissonancia (vget v k).

(* ===================================================================== *)
(** ** JavaScript [Math] on exact rationals                               *)
(* ===================================================================== *)

Module JsMath.

(** [a > b]. *)
Definition gtb (a b : Q) : bool := negb (Qle_bool a b).

(** [Math.max(a, b)] and [Math.min(a, b)]. *)
Definition max (a b : Q) : Q := if Qle_bool a b then b else a.
Definition min (a b : Q) : Q := if Qle_bool a b then a else b.

(** [Math.round(x)]: the nearest integer, a half rounding up. *)
Definition round (x : Q) : Z := Qfloor (x + (1 # 2)).

(** [Math.ceil(x)]. *)
Definition ceil (x : Q) : Z := Qceiling x.

End JsMath.

(* ===================================================================== *)
(** ** calculateUcs                                                       *)
(* ===================================================================== *)

Definition ucs_dimensions : list DimensionKey :=
  [K_proposito; K_mental; K_relacional; K_emocional; K_somatico;
   K_eticoAcao; K_recursos].

Definition calculateUcs (vector : CoherenceVector) : Z :=
  let dimensions := ucs_dimensions in
  let totalCoherence :=
    fold_left (fun sum dim => sum + coerencia (vget vector dim)) dimensions 0 in
  let totalDissonance :=
    fold_left (fun sum dim => sum + dissonancia (vget vector dim)) dimensions 0 in
  let len := inject_Z (Z.of_nat (List.length dimensions)) in
  let avgCoherence := totalCoherence / len in
  let avgDissonance := totalDissonance / len in
  let netCoherence := avgCoherence - avgDissonance in
  let pacFactor := (alinhamentoPAC vector / 100) * (2 # 10) + (9 # 10) in
  let finalScore := (netCoherence * pacFactor + 100) / 2 in
  JsMath.round (JsMath.max 0 (JsMath.min 100 finalScore)).

(** The score as the specification words it: the mean coherence minus the
    mean dissonance, times [0.9 + 0.2 * (alignment / 100)], normalised,
    clamped to [0, 100] and rounded. *)
Module UcsSpec.

Definition mean7 (f : DimensionState -> Q) (v : CoherenceVector) : Q :=
    (f (proposito v) + f (mental v) + f (relacional v) + f (emocional v)
     + f (somatico v) + f (eticoAcao v) + f (recursos v)) / 7.

Definition netCoherence (v : CoherenceVector) : Q :=
    mean7 coerencia v - mean7 dissonancia v.

Definition factor (v : CoherenceVector) : Q :=
    (9 # 10) + (2 # 10) * (alinhamentoPAC v / 100).

Definition clamp (x lo hi : Q) : Q :=
    if Qle_bool x lo then lo else if Qle_bool hi x then hi else x.

Definition score (v : CoherenceVector) : Z :=
    JsMath.round (clamp ((netCoherence v * factor v + 100) / 2) 0 100).

End UcsSpec.

(** The vector of the specification's example: every dimension at
    coherence 50 and dissonance 50, alignment 70. *)
Definition balanced_vector : CoherenceVector :=
  let d := mkDim 50 50 in mkVector 70 d d d d d d d.

(* ===================================================================== *)
(** ** getPicRecommendation                                               *)
(* ===================================================================== *)

Module DimensionEntry.
Record t : Type := mk {
  key : DimensionKey;
  agent : AgentId;
  name : string
}.
End DimensionEntry.

Module Recommendation.
Record t : Type := mk {
  agentId : AgentId;
  dimensionName : string
}.
End Recommendation.

Definition pic_dimensions : list DimensionEntry.t :=
  [ DimensionEntry.mk K_proposito SELF_KNOWLEDGE "Propósito";
    DimensionEntry.mk K_mental SELF_KNOWLEDGE "Mental";
    DimensionEntry.mk K_relacional COHERENCE "Relacional";
    DimensionEntry.mk K_emocional COHERENCE "Emocional";
    DimensionEntry.mk K_somatico HEALTH "Somático";
    DimensionEntry.mk K_eticoAcao COHERENCE "Ético-Ação";
    DimensionEntry.mk K_recursos EMOTIONAL_FINANCE "Recursos" ].

Definition fallback_recommendation : Recommendation.t :=
  Recommendation.mk COHERENCE "Geral".

(** The body of the [forEach] callback: the two [let] variables are the
    state it updates. *)
Definition pic_step (vector : CoherenceVector)
    (acc : Q * Recommendation.t) (dim : DimensionEntry.t) : Q * Recommendation.t :=
  let '(highestDissonance, recommendation) := acc in
  if JsMath.gtb (dissonancia (vget vector (DimensionEntry.key dim)))
                highestDissonance
  then (dissonancia (vget vector (DimensionEntry.key dim)),
        Recommendation.mk (DimensionEntry.agent dim) (DimensionEntry.name dim))
  else (highestDissonance, recommendation).

Definition pic_scan (vector : CoherenceVector) (dims : list DimensionEntry.t)
    (acc : Q * Recommendation.t) : Q * Recommendation.t :=
  fold_left (pic_step vector) dims acc.

Definition getPicRecommendation (vector : CoherenceVector) : Recommendation.t :=
  snd (pic_scan vector pic_dimensions (-1, fallback_recommendation)).

(** What the lookup table says of one of its rows. *)
Definition entry_recommendation (d : DimensionEntry.t) : Recommendation.t :=
  Recommendation.mk (DimensionEntry.agent d) (DimensionEntry.name d).

Definition entry_dissonance (v : CoherenceVector) (d : DimensionEntry.t) : Q :=
  dissonancia (vget v (DimensionEntry.key d)).

(* ===================================================================== *)
(** ** Records of the store                                               *)
(* ===================================================================== *)

Local Open Scope Z_scope.

(** A value of TypeScript type [any] that the store only carries around:
    kept as its JSON text. *)
Definition Any : Type := string.

Inductive Sender : Type := user | agent.

Module Message.
Record t : Type := mk {
  id : string;
  sender : Sender;
  text : string;
  timestamp : Z
}.
End Message.

Inductive ScheduleActivity : Type :=
| act_meditation | act_guided_prayer | act_prayer_pills.

Inductive ScheduleStatus : Type := scheduled | completed | missed.

Inductive Recurrence : Type := rec_none | daily | weekly | custom.

Module Schedule.
Record t : Type := mk {
  id : string;
  activity : ScheduleActivity;
  time : Z;
  status : ScheduleStatus;
  recurrence : Recurrence;
  recurrenceDays : option (list Z)
}.

Definition with_status (s : ScheduleStatus) (x : t) : t :=
  mk (id x) (activity x) (time x) s (recurrence x) (recurrenceDays x).

Definition with_time (tm : Z) (x : t) : t :=
  mk (id x) (activity x) tm (status x) (recurrence x) (recurrenceDays x).
End Schedule.

(** [GuideState.context] is [any]; the store reads one path of it,
    [context?.agent?.id]. *)
Module GuideState.
Record t : Type := mk {
  isActive : bool;
  step : Z;
  tourId : option string;
  context : option AgentId
}.
End GuideState.

(** The payload of an activity: the tagged union of [ActivityLogEntry]. *)
Inductive ActivityData : Type :=
| chat_session (messages : list Message.t)
| tool_usage (toolId : ToolId) (result : Any).

(** [entryData.data.toolId]: [undefined] on a chat session. *)
Definition data_toolId (d : ActivityData) : option ToolId :=
  match d with
  | chat_session _ => None
  | tool_usage t _ => Some t
  end.

(** The id of an entry is the text [activity-] followed by the time of
    its creation; the number is kept. *)
Inductive ActivityId : Type := activity_ (now : Z).

Module ActivityLogEntry.
Record t : Type := mk {
  id : ActivityId;
  timestamp : Z;
  agentId : AgentId;
  vectorSnapshot : CoherenceVector;
  data : ActivityData
}.
End ActivityLogEntry.

(** [Omit<ActivityLogEntry, 'id' | 'timestamp' | 'vectorSnapshot'>]. *)
Module EntryData.
Record t : Type := mk {
  agentId : AgentId;
  data : ActivityData
}.
End EntryData.

Module CoherenceQuest.
Record t : Type := mk {
  id : string;
  title : string;
  description : string;
  targetTool : ToolId;
  targetDimension : DimensionKey;
  isCompleted : bool;
  completionTimestamp : option Z
}.

Definition complete (now : Z) (q : t) : t :=
  mk (id q) (title q) (description q) (targetTool q) (targetDimension q)
     true (Some now).
End CoherenceQuest.

Inductive View : Type := dashboard | agents | tools | quests.

Inductive Mode : Type := voice_mode | text_mode.
Inductive Origin : Type := origin_voice | origin_manual.

(** The four session variants that carry a [schedule]. *)
Inductive HandlerKind : Type :=
| scheduled_session_handler
| guided_meditation_voice
| guided_prayer_voice
| prayer_pills_voice.

(** [type Session]: the variant [agent], the seventeen variants named
    after a tool (with the optional initial text and [autoStart] some of
    them have), the four with a schedule, and the two screens. *)
Inductive Session : Type :=
| session_agent (id : AgentId) (autoStart isReconnection : option bool)
| session_tool (tool : ToolId) (initial : option string)
    (autoStart : option bool)
| session_handler (kind : HandlerKind) (schedule : Schedule.t)
| journey_history
| help_center.

(** [Session & { mode?, origin? }]. *)
Module CurrentSession.
Record t : Type := mk {
  session : Session;
  mode : option Mode;
  origin : option Origin
}.
End CurrentSession.

(** [proactiveNavContext: string | null | 'loading']. *)
Inductive NavContext : Type :=
| nav_null
| nav_loading
| nav_text (s : string).

(** The fields of [AppState] that the modelled actions read or write. *)
Module AppState.
Record t : Type := mk {
  coherenceVector : CoherenceVector;
  ucs : Z;
  recommendation : option AgentId;
  recommendationName : string;
  activeView : View;
  currentSession : option CurrentSession.t;
  chatHistories : AgentId -> option (list Message.t);
  schedules : list Schedule.t;
  guideState : GuideState.t;
  completedTours : list string;
  activityLog : list ActivityLogEntry.t;
  isVoiceNavOpen : bool;
  reconnectionAgentId : option AgentId;
  proactiveNavContext : NavContext;
  coherencePoints : Z;
  coherenceStreak : Z;
  lastActivityTimestamp : option Z;
  activeQuest : option CoherenceQuest.t;
  completedQuests : list CoherenceQuest.t
}.

Definition set_coherenceVector (x : CoherenceVector) (s : t) : t :=
  mk x (ucs s) (recommendation s) (recommendationName s) (activeView s)
     (currentSession s) (chatHistories s) (schedules s) (guideState s)
     (completedTours s) (activityLog s) (isVoiceNavOpen s)
     (reconnectionAgentId s) (proactiveNavContext s) (coherencePoints s)
     (coherenceStreak s) (lastActivityTimestamp s) (activeQuest s)
     (completedQuests s).

Definition set_ucs (x : Z) (s : t) : t :=
  mk (coherenceVector s) x (recommendation s) (recommendationName s)
     (activeView s) (currentSession s) (chatHistories s) (schedules s)
     (guideState s) (completedTours s) (activityLog s) (isVoiceNavOpen s)
     (reconnectionAgentId s) (proactiveNavContext s) (coherencePoints s)
     (coherenceStreak s) (lastActivityTimestamp s) (activeQuest s)
     (completedQuests s).

Definition set_recommendation (x : option AgentId) (s : t) : t :=
  mk (coherenceVector s) (ucs s) x (recommendationName s) (activeView s)
     (currentSession s) (chatHistories s) (schedules s) (guideState s)
     (completedTours s) (activityLog s) (isVoiceNavOpen s)
     (reconnectionAgentId s) (proactiveNavContext s) (coherencePoints s)
     (coherenceStreak s) (lastActivityTimestamp s) (activeQuest s)
     (completedQuests s).

Definition set_recommendationName (x : string) (s : t) : t :=
  mk (coherenceVector s) (ucs s) (recommendation s) x (activeView s)
     (currentSession s) (chatHistories s) (schedules s) (guideState s)
     (completedTours s) (activityLog s) (isVoiceNavOpen s)
     (reconnectionAgentId s) (proactiveNavContext s) (coherencePoints s)
     (coherenceStreak s) (lastActivityTimestamp s) (activeQuest s)
     (completedQuests s).

Definition set_activeView (x : View) (s : t) : t :=
  mk (coherenceVector s) (ucs s) (recommendation s) (recommendationName s) x
     (currentSession s) (chatHistories s) (schedules s) (guideState s)
     (completedTours s) (activityLog s) (isVoiceNavOpen s)
     (reconnectionAgentId s) (proactiveNavContext s) (coherencePoints s)
     (coherenceStreak s) (lastActivityTimestamp s) (activeQuest s)
     (completedQuests s).

Definition set_currentSession (x : option CurrentSession.t) (s : t) : t :=
  mk (coherenceVector s) (ucs s) (recommendation s) (recommendationName s)
     (activeView s) x (chatHistories s) (schedules s) (guideState s)
     (completedTours s) (activityLog s) (isVoiceNavOpen s)
     (reconnectionAgentId s) (proactiveNavContext s) (coherencePoints s)
     (coherenceStreak s) (lastActivityTimestamp s) (activeQuest s)
     (completedQuests s).

Definition set_schedules (x : list Schedule.t) (s : t) : t :=
  mk (coherenceVector s) (ucs s) (recommendation s) (recommendationName s)
     (activeView s) (currentSession s) (chatHistories s) x (guideState s)
     (completedTours s) (activityLog s) (isVoiceNavOpen s)
     (reconnectionAgentId s) (proactiveNavContext s) (coherencePoints s)
     (coherenceStreak s) (lastActivityTimestamp s) (activeQuest s)
     (completedQuests s).

Definition set_guideState (x : GuideState.t) (s : t) : t :=
  mk (coherenceVector s) (ucs s) (recommendation s) (recommendationName s)
     (activeView s) (currentSession s) (chatHistories s) (schedules s) x
     (completedTours s) (activityLog s) (isVoiceNavOpen s)
     (reconnectionAgentId s) (proactiveNavContext s) (coherencePoints s)
     (coherenceStreak s) (lastActivityTimestamp s) (activeQuest s)
     (completedQuests s).

Definition set_completedTours (x : list string) (s : t) : t :=
  mk (coherenceVector s) (ucs s) (recommendation s) (recommendationName s)
     (activeView s) (currentSession s) (chatHistories s) (schedules s)
     (guideState s) x (activityLog s) (isVoiceNavOpen s)
     (reconnectionAgentId s) (proactiveNavContext s) (coherencePoints s)
     (coherenceStreak s) (lastActivityTimestamp s) (activeQuest s)
     (completedQuests s).

Definition set_activityLog (x : list ActivityLogEntry.t) (s : t) : t :=
  mk (coherenceVector s) (ucs s) (recommendation s) (recommendationName s)
     (activeView s) (currentSession s) (chatHistories s) (schedules s)
     (guideState s) (completedTours s) x (isVoiceNavOpen s)
     (reconnectionAgentId s) (proactiveNavContext s) (coherencePoints s)
     (coherenceStreak s) (lastActivityTimestamp s) (activeQuest s)
     (completedQuests s).

Definition set_isVoiceNavOpen (x : bool) (s : t) : t :=
  mk (coherenceVector s) (ucs s) (recommendation s) (recommendationName s)
     (activeView s) (currentSession s) (chatHistories s) (schedules s)
     (guideState s) (completedTours s) (activityLog s) x
     (reconnectionAgentId s) (proactiveNavContext s) (coherencePoints s)
     (coherenceStreak s) (lastActivityTimestamp s) (activeQuest s)
     (completedQuests s).

Definition set_reconnectionAgentId (x : option AgentId) (s : t) : t :=
  mk (coherenceVector s) (ucs s) (recommendation s) (recommendationName s)
     (activeView s) (currentSession s) (chatHistories s) (schedules s)
     (guideState s) (completedTours s) (activityLog s) (isVoiceNavOpen s) x
     (proactiveNavContext s) (coherencePoints s) (coherenceStreak s)
     (lastActivityTimestamp s) (activeQuest s) (completedQuests s).

Definition set_proactiveNavContext (x : NavContext) (s : t) : t :=
  mk (coherenceVector s) (ucs s) (recommendation s) (recommendationName s)
     (activeView s) (currentSession s) (chatHistories s) (schedules s)
     (guideState s) (completedTours s) (activityLog s) (isVoiceNavOpen s)
     (reconnectionAgentId s) x (coherencePoints s) (coherenceStreak s)
     (lastActivityTimestamp s) (activeQuest s) (completedQuests s).

Definition set_coherencePoints (x : Z) (s : t) : t :=
  mk (coherenceVector s) (ucs s) (recommendation s) (recommendationName s)
     (activeView s) (currentSession s) (chatHistories s) (schedules s)
     (guideState s) (completedTours s) (activityLog s) (isVoiceNavOpen s)
     (reconnectionAgentId s) (proactiveNavContext s) x (coherenceStreak s)
     (lastActivityTimestamp s) (activeQuest s) (completedQuests s).

Definition set_coherenceStreak (x : Z) (s : t) : t :=
  mk (coherenceVector s) (ucs s) (recommendation s) (recommendationName s)
     (activeView s) (currentSession s) (chatHistories s) (schedules s)
     (guideState s) (completedTours s) (activityLog s) (isVoiceNavOpen s)
     (reconnectionAgentId s) (proactiveNavContext s) (coherencePoints s) x
     (lastActivityTimestamp s) (activeQuest s) (completedQuests s).

Definition set_lastActivityTimestamp (x : option Z) (s : t) : t :=
  mk (coherenceVector s) (ucs s) (recommendation s) (recommendationName s)
     (activeView s) (currentSession s) (chatHistories s) (schedules s)
     (guideState s) (completedTours s) (activityLog s) (isVoiceNavOpen s)
     (reconnectionAgentId s) (proactiveNavContext s) (coherencePoints s)
     (coherenceStreak s) x (activeQuest s) (completedQuests s).

Definition set_activeQuest (x : option CoherenceQuest.t) (s : t) : t :=
  mk (coherenceVector s) (ucs s) (recommendation s) (recommendationName s)
     (activeView s) (currentSession s) (chatHistories s) (schedules s)
     (guideState s) (completedTours s) (activityLog s) (isVoiceNavOpen s)
     (reconnectionAgentId s) (proactiveNavContext s) (coherencePoints s)
     (coherenceStreak s) (lastActivityTimestamp s) x (completedQuests s).

Definition set_completedQuests (x : list CoherenceQuest.t) (s : t) : t :=
  mk (coherenceVector s) (ucs s) (recommendation s) (recommendationName s)
     (activeView s) (currentSession s) (chatHistories s) (schedules s)
     (guideState s) (completedTours s) (activityLog s) (isVoiceNavOpen s)
     (reconnectionAgentId s) (proactiveNavContext s) (coherencePoints s)
     (coherenceStreak s) (lastActivityTimestamp s) (activeQuest s) x.
End AppState.

(* ===================================================================== *)
(** ** JavaScript [Date] in a zone at a constant offset from UTC          *)
(* ===================================================================== *)

Module JsDate.

Definition msPerDay : Z := 24 * 60 * 60 * 1000.

(** The local calendar day of instant [t], counted from 1 January 1970,
    in the zone [tz] milliseconds ahead of UTC. *)
Definition localDay (tz t : Z) : Z := (t + tz) / msPerDay.


(** [d.toDateString()] names the local calendar day (weekday, month, day
    and year); two instants have the same text exactly when they have the
    same local day, which stands for the text. *)
Definition toDateString (tz t : Z) : Z := localDay tz t.

(** [d.getDay()]: 0 is Sunday; 1 January 1970 was a Thursday. *)
Definition getDay (tz t : Z) : Z := (localDay tz t + 4) mod 7.

(** [d.setDate(d.getDate() + n)]: the same local time of day, [n] local
    calendar days later. *)
Definition addDays (t n : Z) : Z := t + n * msPerDay.

End JsDate.

(** [[...days].sort((a, b) => a - b)]. *)
Fixpoint insert_sorted (x : Z) (l : list Z) : list Z :=
  match l with
  | [] => [x]
  | y :: r => if x <=? y then x :: y :: r else y :: insert_sorted x r
  end.

Definition sort_ascending (l : list Z) : list Z :=
  fold_right insert_sorted [] l.

(* ===================================================================== *)
(** ** The store: initial state                                           *)
(* ===================================================================== *)

Definition initialVector : CoherenceVector :=
  mkVector 70%Q (mkDim 60 30) (mkDim 75 40) (mkDim 65 35) (mkDim 50 50)
           (mkDim 70 20) (mkDim 80 10) (mkDim 55 60).

Definition initialGuideState : GuideState.t :=
  GuideState.mk false 0 None None.

Definition initialState : AppState.t :=
  AppState.mk
    initialVector
    (calculateUcs initialVector)
    (Some (Recommendation.agentId (getPicRecommendation initialVector)))
    (Recommendation.dimensionName (getPicRecommendation initialVector))
    dashboard
    None
    (fun _ => Some [])
    []
    initialGuideState
    []
    []
    false
    None
    nav_null
    0
    0
    None
    None
    [].

(* ===================================================================== *)
(** ** handleScheduleCompletion                                           *)
(* ===================================================================== *)

(** The catch-up loop
    [while (nextTime.getTime() <= Date.now()) { ... }]:
    a daily schedule steps by one day, a weekly one by seven, any other
    recurrence leaves the loop at once.  The loop ends because the number
    of whole days from [nextTime] to [now] decreases. *)
Equations? catchUp (r : Recurrence) (now nextTime : Z) : Z
  by wf (Z.to_nat ((now - nextTime) / JsDate.msPerDay + 1)) lt :=
  catchUp r now nextTime with Z_le_gt_dec nextTime now => {
    | right _ => nextTime
    | left _ with r => {
      | daily => catchUp daily now (JsDate.addDays nextTime 1)
      | weekly => catchUp weekly now (JsDate.addDays nextTime 7)
      | _ => nextTime } }.
Proof.
  all: unfold JsDate.addDays, JsDate.msPerDay.
  all: match goal with
       | |- context [(?a - (?b + ?n * ?d)) / ?d] =>
           replace (a - (b + n * d)) with (a - b + (- n) * d) by lia;
           rewrite Z.div_add by lia;
           assert (0 <= (a - b) / d) by (apply Z.div_pos; lia)
       end.
  all: lia.
Qed.

Section ScheduleCompletion.

Variable tz : Z.

(** The custom-days branch: how many days to the next configured weekday
    after the weekday of the current occurrence. *)
Definition customDaysToAdd (recurrenceDays : list Z) (currentDay : Z) : Z :=
  let sortedDays := sort_ascending recurrenceDays in
  match find (fun d => currentDay <? d) sortedDays with
  | Some nextDay => nextDay - currentDay
  | None =>
      let nextDay := hd 0 sortedDays in
      (7 - currentDay) + nextDay
  end.

(** The recipe applied to the schedule that [find] returned. *)
Definition completeSchedule (now : Z) (schedule : Schedule.t) : Schedule.t :=
  match Schedule.recurrence schedule with
  | rec_none => Schedule.with_status completed schedule
  | r =>
      let currentTime := Schedule.time schedule in
      let nextTime := Schedule.time schedule in
      let nextTime :=
        match r with
        | daily => JsDate.addDays nextTime 1
        | weekly => JsDate.addDays nextTime 7
        | custom =>
            match Schedule.recurrenceDays schedule with
            | Some days =>
                if (0 <? Z.of_nat (List.length days))
                then JsDate.addDays nextTime
                       (customDaysToAdd days (JsDate.getDay tz currentTime))
                else nextTime
            | None => nextTime
            end
        | rec_none => nextTime
        end in
      let nextTime := catchUp r now nextTime in
      Schedule.with_time nextTime schedule
  end.

(** [draft.schedules.find(s => s.id === scheduleId)] followed by the
    in-place update of the schedule found. *)
Fixpoint update_found (scheduleId : string) (f : Schedule.t -> Schedule.t)
    (l : list Schedule.t) : list Schedule.t :=
  match l with
  | [] => []
  | s :: rest =>
      if String.eqb (Schedule.id s) scheduleId
      then f s :: rest
      else s :: update_found scheduleId f rest
  end.

Definition handleScheduleCompletion (scheduleId : string) (now : Z)
    (st : AppState.t) : AppState.t :=
  AppState.set_schedules
    (update_found scheduleId (completeSchedule now) (AppState.schedules st))
    st.

End ScheduleCompletion.

(** The schedule an id designates: the first one bearing it. *)
Definition find_schedule (scheduleId : string) (l : list Schedule.t)
  : option Schedule.t :=
  find (fun s => String.eqb (Schedule.id s) scheduleId) l.

(* ===================================================================== *)
(** ** The guide actions                                                  *)
(* ===================================================================== *)

(** The values of [enum AgentId]. *)
Definition AgentId_value (a : AgentId) : string :=
  match a with
  | COHERENCE => "coherence"
  | SELF_KNOWLEDGE => "self_knowledge"
  | HEALTH => "health"
  | EMOTIONAL_FINANCE => "emotional_finance"
  | INVESTMENTS => "investments"
  | GUIDE => "guide"
  end.

Definition startGuide (tourId : string) (context : option AgentId)
    (st : AppState.t) : AppState.t :=
  if GuideState.isActive (AppState.guideState st) then st
  else AppState.set_guideState (GuideState.mk true 0 (Some tourId) context) st.

Definition prevGuideStep (st : AppState.t) : AppState.t :=
  let g := AppState.guideState st in
  AppState.set_guideState
    (GuideState.mk (GuideState.isActive g)
                   (Z.max 0 (GuideState.step g - 1))
                   (GuideState.tourId g) (GuideState.context g))
    st.

Definition nextGuideStep (st : AppState.t) : AppState.t :=
  let g := AppState.guideState st in
  AppState.set_guideState
    (GuideState.mk (GuideState.isActive g)
                   (GuideState.step g + 1)
                   (GuideState.tourId g) (GuideState.context g))
    st.

Definition includes (l : list string) (x : string) : bool :=
  existsb (String.eqb x) l.

(** A string is truthy unless it is empty. *)
Definition truthy_string (s : string) : bool := negb (String.eqb s "").

Definition uniqueTourId_of (tourId : string) (context : option AgentId)
  : string :=
  match context with
  | Some a =>
      if String.eqb tourId "mentor"
      then String.append "mentor_" (AgentId_value a)
      else tourId
  | None => tourId
  end.

Definition setView (view : View) (st : AppState.t) : AppState.t :=
  AppState.set_activeView view st.

Definition openVoiceNav (st : AppState.t) : AppState.t :=
  AppState.set_isVoiceNavOpen true st.

Definition endGuide (st : AppState.t) : AppState.t :=
  let tourId := GuideState.tourId (AppState.guideState st) in
  let context := GuideState.context (AppState.guideState st) in
  let st := AppState.set_guideState (GuideState.mk false 0 None None) st in
  let st :=
    match tourId with
    | Some tid =>
        if truthy_string tid then
          let uniqueTourId := uniqueTourId_of tid context in
          if includes (AppState.completedTours st) uniqueTourId then st
          else AppState.set_completedTours
                 (AppState.completedTours st ++ [uniqueTourId]) st
        else st
    | None => st
    end in
  match tourId with
  | Some tid =>
      if String.eqb tid "main"
      then openVoiceNav (setView dashboard st)
      else st
  | None => st
  end.

Inductive GuideAction : Type :=
| StartGuide (tourId : string) (context : option AgentId)
| PrevGuideStep
| NextGuideStep
| EndGuide.

Definition guide_apply (a : GuideAction) (st : AppState.t) : AppState.t :=
  match a with
  | StartGuide tourId context => startGuide tourId context st
  | PrevGuideStep => prevGuideStep st
  | NextGuideStep => nextGuideStep st
  | EndGuide => endGuide st
  end.

Definition guide_run (l : list GuideAction) (st : AppState.t) : AppState.t :=
  fold_left (fun s a => guide_apply a s) l st.

(* ===================================================================== *)
(** ** logActivity and endSession                                         *)
(* ===================================================================== *)

Section SessionActions.

(** [orchestrate] (hooks/usePicOrchestrator.ts) maps an activity and the
    current vector to the new vector and the points gained.  Its first
    argument is the entry data completed with a blank id, timestamp and
    snapshot; only the entry data is passed here. *)
Variable orchestrate :
  EntryData.t -> CoherenceVector -> CoherenceVector * Z.

(** The offset of the local zone, in milliseconds. *)
Variable tz : Z.

(** The two summarising services awaited by [endSession]; [None] is a
    rejected promise. *)
Variable summarizeToolResultForEngagement : ToolId -> Any -> option string.
Variable summarizeForProactiveEngagement : list Message.t -> option string.

(** [if (draft.activityLog.length > 100) draft.activityLog.length = 100]. *)
Definition truncate_log (l : list ActivityLogEntry.t)
  : list ActivityLogEntry.t :=
  if (100 <? Z.of_nat (List.length l)) then firstn 100 l else l.

(** The quest part of the recipe.  The toast it raises touches no field
    modelled here. *)
Definition completeQuest (entryData : EntryData.t) (now : Z)
    (draft : AppState.t) : AppState.t :=
  match AppState.activeQuest draft with
  | Some quest =>
      if negb (CoherenceQuest.isCompleted quest)
         && match data_toolId (EntryData.data entryData) with
            | Some t => ToolId_eqb (CoherenceQuest.targetTool quest) t
            | None => false
            end
      then
        let done := CoherenceQuest.complete now quest in
        AppState.set_activeQuest None
          (AppState.set_completedQuests
             (done :: AppState.completedQuests draft) draft)
      else draft
  | None => draft
  end.

(** The streak part of the recipe.  [lastDate] is [null] when the stored
    timestamp is [null] or [0]. *)
Definition updateStreak (now : Z) (draft : AppState.t) : AppState.t :=
  let lastDate :=
    match AppState.lastActivityTimestamp draft with
    | Some t => if t =? 0 then None else Some t
    | None => None
    end in
  let today := now in
  let differentDay :=
    match lastDate with
    | None => true
    | Some l =>
        negb (JsDate.toDateString tz l =? JsDate.toDateString tz today)
    end in
  if differentDay then
    let recent :=
      match lastDate with
      | Some l => today - l <? 2 * 24 * 60 * 60 * 1000
      | None => false
      end in
    if recent
    then AppState.set_coherenceStreak (AppState.coherenceStreak draft + 1) draft
    else AppState.set_coherenceStreak 1 draft
  else draft.

Definition newEntryOf (entryData : EntryData.t) (now : Z)
    (newVector : CoherenceVector) : ActivityLogEntry.t :=
  ActivityLogEntry.mk (activity_ now) now (EntryData.agentId entryData)
                      newVector (EntryData.data entryData).

Definition logActivity (entryData : EntryData.t) (now : Z)
    (draft : AppState.t) : AppState.t :=
  let '(newVector, pointsGained) :=
    orchestrate entryData (AppState.coherenceVector draft) in
  let newEntry := newEntryOf entryData now newVector in
  let draft :=
    AppState.set_activityLog
      (truncate_log (newEntry :: AppState.activityLog draft)) draft in
  let draft := AppState.set_coherenceVector newVector draft in
  let draft :=
    AppState.set_coherencePoints
      (AppState.coherencePoints draft + pointsGained) draft in
  let draft := AppState.set_ucs (calculateUcs newVector) draft in
  let newRecommendation := getPicRecommendation newVector in
  let draft :=
    AppState.set_recommendation
      (Some (Recommendation.agentId newRecommendation)) draft in
  let draft :=
    AppState.set_recommendationName
      (Recommendation.dimensionName newRecommendation) draft in
  let draft := completeQuest entryData now draft in
  let draft := updateStreak now draft in
  AppState.set_lastActivityTimestamp (Some now) draft.

Definition is_agent (s : Session) : bool :=
  match s with
  | session_agent _ _ _ => true
  | _ => false
  end.

Definition mode_is (m : Mode) (o : option Mode) : bool :=
  match o, m with
  | Some voice_mode, voice_mode | Some text_mode, text_mode => true
  | _, _ => false
  end.

Definition origin_is_voice (o : option Origin) : bool :=
  match o with
  | Some origin_voice => true
  | _ => false
  end.

Definition shouldOpenVoiceNav (session : CurrentSession.t) : bool :=
  origin_is_voice (CurrentSession.origin session)
  && negb (is_agent (CurrentSession.session session)
           && mode_is text_mode (CurrentSession.mode session)).

(** The [try] block of the voice path: the text for the navigator, or
    [None] when the awaited service rejects. *)
Definition proactiveContextOf (session : CurrentSession.t)
    (isManualExit : bool) (toolResult : option (ToolId * Any))
    (st : AppState.t) : option string :=
  match CurrentSession.session session, toolResult with
  | session_agent agentId _ _, _ =>
      if mode_is voice_mode (CurrentSession.mode session) && isManualExit
      then
        match AppState.chatHistories st agentId with
        | Some history =>
            if (0 <? Z.of_nat (List.length history))
            then summarizeForProactiveEngagement history
            else Some "O que você gostaria de fazer agora?"%string
        | None => Some "O que você gostaria de fazer agora?"%string
        end
      else Some "Sessão encerrada. O que você gostaria de fazer a seguir?"%string
  | _, Some (toolId, result) =>
      summarizeToolResultForEngagement toolId result
  | _, None =>
      Some "Sessão encerrada. O que você gostaria de fazer a seguir?"%string
  end.

Definition endSession (isManualExit : bool)
    (toolResult : option (ToolId * Any)) (now : Z) (st : AppState.t)
  : AppState.t :=
  match AppState.currentSession st with
  | None => st
  | Some session =>
      if shouldOpenVoiceNav session then
        let st :=
          AppState.set_proactiveNavContext nav_loading
            (AppState.set_isVoiceNavOpen true
               (AppState.set_currentSession None st)) in
        match proactiveContextOf session isManualExit toolResult st with
        | Some proactiveContext =>
            if AppState.isVoiceNavOpen st
            then AppState.set_proactiveNavContext (nav_text proactiveContext) st
            else st
        | None =>
            if AppState.isVoiceNavOpen st
            then AppState.set_proactiveNavContext nav_null st
            else st
        end
      else
        let st :=
          match CurrentSession.session session with
          | session_agent agentId _ _ =>
              match AppState.chatHistories st agentId with
              | Some history =>
                  if (1 <? Z.of_nat (List.length history))
                  then logActivity
                         (EntryData.mk agentId (chat_session history)) now st
                  else st
              | None => st
              end
          | _ => st
          end in
        AppState.set_proactiveNavContext nav_null
          (AppState.set_reconnectionAgentId None
             (AppState.set_currentSession None st))
  end.

(** A run of [logActivity] calls, each with the time it is made at. *)
Definition logActivities (calls : list (EntryData.t * Z)) (st : AppState.t)
  : AppState.t :=
  fold_left (fun s c => logActivity (fst c) (snd c) s) calls st.

End SessionActions.

(** What an entry records of the call that created it. *)
Definition entry_call (e : ActivityLogEntry.t) : EntryData.t * Z :=
  (EntryData.mk (ActivityLogEntry.agentId e) (ActivityLogEntry.data e),
   ActivityLogEntry.timestamp e).

(* ===================================================================== *)
(** ** safeLocalStorage                                                   *)
(* ===================================================================== *)

Module Storage.

(** What a storage call or [JSON.parse] can throw.  The wrapper tells a
    quota error ([DOMException] with code 22 or 1014, or named
    [QuotaExceededError]) from any other. *)
Inductive JsError : Type :=
| QuotaExceededError
| OtherError
| SyntaxError.

Definition isQuotaExceeded (e : JsError) : bool :=
  match e with
  | QuotaExceededError => true
  | _ => false
  end.

(** [JournalEntry] and [VerbalFrequencyEntry]: the wrapper only counts
    them. *)
Record HistoryEntry : Type := mkHistoryEntry {
  history_id : string;
  history_timestamp : Z
}.

(** The parsed blob, read through the optional chains
    [state?.activityLog], [state?.toolStates?.therapeuticJournal?.history]
    and [state?.toolStates?.verbalFrequencyAnalysis?.history]; [None] is a
    chain that yields [undefined].  The rest of the document is carried
    along unread. *)
Record PersistedDoc : Type := mkDoc {
  doc_activityLog : option (list ActivityLogEntry.t);
  doc_journalHistory : option (list HistoryEntry);
  doc_verbalHistory : option (list HistoryEntry);
  doc_rest : Any
}.

(** A stored string: the JSON text of a document, or text that does not
    parse. *)
Inductive StoredString : Type :=
| json_text (doc : PersistedDoc)
| raw_text (s : string).

Definition truthy (s : StoredString) : bool :=
  match s with
  | json_text _ => true
  | raw_text r => negb (String.eqb r "")
  end.

Inductive ConsoleLine : Type :=
| warn_quota_exceeded
| log_pruning_complete
| error_cleanup_failed (e : JsError)
| error_write_failed (e : JsError).

(** The browser side: the items of [localStorage] and the console. *)
Record World : Type := mkWorld {
  items : string -> option StoredString;
  console : list ConsoleLine
}.

Inductive Completion (A : Type) : Type :=
| normal (a : A)
| throw (e : JsError).
Arguments normal {A} a.
Arguments throw {A} e.

Definition M (A : Type) : Type := World -> Completion A * World.

Definition ret {A} (a : A) : M A := fun w => (normal a, w).

Definition bind {A B} (c : M A) (k : A -> M B) : M B :=
  fun w =>
    match c w with
    | (normal a, w') => k a w'
    | (throw e, w') => (throw e, w')
    end.

Definition try_catch {A} (body : M A) (handler : JsError -> M A) : M A :=
  fun w =>
    match body w with
    | (normal a, w') => (normal a, w')
    | (throw e, w') => handler e w'
    end.

Definition raise {A} (e : JsError) : M A := fun w => (throw e, w).

Notation "x <- c ;; k" := (bind c (fun x => k))
  (at level 61, c at next level, right associativity).
Notation "c ;;; k" := (bind c (fun _ => k))
  (at level 61, right associativity).

Definition console_write (l : ConsoleLine) : M unit :=
  fun w => (normal tt, mkWorld (items w) (console w ++ [l])).

Definition JSON_parse (s : StoredString) : M PersistedDoc :=
  match s with
  | json_text doc => ret doc
  | raw_text _ => raise SyntaxError
  end.

Definition JSON_stringify (doc : PersistedDoc) : StoredString :=
  json_text doc.

(** [arr.splice(start)]: the elements from [start] on are removed. *)
Definition splice_from {A} (start : Z) (arr : list A) : list A :=
  let len := Z.of_nat (List.length arr) in
  let start := if start <? 0 then Z.max (len + start) 0 else Z.min start len in
  firstn (Z.to_nat start) arr.

(** [pruneArray]: the array after the call and the flag [stateModified]
    after the call. *)
Definition pruneArray {A} (arr : option (list A)) (stateModified : bool)
  : option (list A) * bool :=
  match arr with
  | Some l =>
      if (10 <? Z.of_nat (List.length l)) then
        let originalLength := Z.of_nat (List.length l) in
        let numberToRemove :=
          JsMath.ceil (inject_Z originalLength * (2 # 10)) in
        (Some (splice_from (originalLength - numberToRemove) l), true)
      else (arr, stateModified)
  | None => (arr, stateModified)
  end.

(** The three prunings in the order of the source. *)
Definition pruneDoc (currentState : PersistedDoc) : PersistedDoc * bool :=
  let stateModified := false in
  let '(log, stateModified) :=
    pruneArray (doc_activityLog currentState) stateModified in
  let '(journal, stateModified) :=
    pruneArray (doc_journalHistory currentState) stateModified in
  let '(verbal, stateModified) :=
    pruneArray (doc_verbalHistory currentState) stateModified in
  (mkDoc log journal verbal (doc_rest currentState), stateModified).

Section Wrapper.

(** The verdict of the browser on writing [value] under [name]: [None]
    accepts.  It depends on the text written and on the other items of
    the origin, which no call of the wrapper changes; it does not depend
    on the text being replaced. *)
Variable verdict : string -> StoredString -> option JsError.

Definition localStorage_getItem (name : string) : M (option StoredString) :=
  fun w => (normal (items w name), w).

Definition localStorage_setItem (name : string) (value : StoredString)
  : M unit :=
  fun w =>
    match verdict name value with
    | None =>
        (normal tt,
         mkWorld (fun k => if String.eqb k name then Some value else items w k)
                 (console w))
    | Some e => (throw e, w)
    end.

Definition cleanup_and_retry (name : string) (value : StoredString) : M unit :=
  currentStateString <- localStorage_getItem name ;;
  match currentStateString with
  | Some text =>
      if truthy text then
        currentState <- JSON_parse text ;;
        let '(currentState, stateModified) := pruneDoc currentState in
        if stateModified then
          console_write log_pruning_complete ;;;
          let prunedState := JSON_stringify currentState in
          localStorage_setItem name prunedState ;;;
          localStorage_setItem name value
        else ret tt
      else ret tt
  | None => ret tt
  end.

Definition setItem (name : string) (value : StoredString) : M unit :=
  try_catch
    (localStorage_setItem name value)
    (fun error =>
       if isQuotaExceeded error then
         console_write warn_quota_exceeded ;;;
         try_catch
           (cleanup_and_retry name value)
           (fun cleanupError =>
              console_write (error_cleanup_failed cleanupError))
       else console_write (error_write_failed error)).

End Wrapper.

(** The number of entries in the activity log of a stored string. *)
Definition log_size (s : option StoredString) : option nat :=
  match s with
  | Some (json_text doc) => option_map (@List.length _) (doc_activityLog doc)
  | _ => None
  end.

End Storage.

(* ===================================================================== *)
(** ** Predicates used by the statements                                  *)
(* ===================================================================== *)

(** What the scan of [getPicRecommendation] has established after the
    rows [pre]: either nothing was scanned and the accumulator is the
    initial one, or the accumulator holds a row of [pre] whose dissonance
    bounds all of [pre] and strictly exceeds that of every earlier row. *)
Definition scan_inv (v : CoherenceVector) (pre : list DimensionEntry.t)
    (acc : Q * Recommendation.t) : Prop :=
  (pre = [] /\ fst acc = (-1)%Q /\ snd acc = fallback_recommendation)
  \/ exists i d,
       nth_error pre i = Some d
       /\ fst acc = entry_dissonance v d
       /\ snd acc = entry_recommendation d
       /\ (forall d', In d' pre -> (entry_dissonance v d' <= fst acc)%Q)
       /\ (forall j d', (j < i)%nat -> nth_error pre j = Some d' ->
                        (entry_dissonance v d' < fst acc)%Q).

Definition guide_step (st : AppState.t) : Z :=
  GuideState.step (AppState.guideState st).

(** The specification's sentence on ending a mentor chat, read for every
    mentor chat session: one message leaves the log alone, two or more
    put the transcript in a new entry. *)
Definition endSession_claim
    (orchestrate : EntryData.t -> CoherenceVector -> CoherenceVector * Z)
    (tz : Z)
    (summarizeTool : ToolId -> Any -> option string)
    (summarizeChat : list Message.t -> option string) : Prop :=
  forall isManualExit toolResult now st session agentId autoStart isReconn
         history,
    AppState.currentSession st = Some session ->
    CurrentSession.session session
    = session_agent agentId autoStart isReconn ->
    AppState.chatHistories st agentId = Some history ->
    let st' :=
      endSession orchestrate tz summarizeTool summarizeChat
                 isManualExit toolResult now st in
    (List.length history = 1%nat ->
     AppState.activityLog st' = AppState.activityLog st)
    /\ ((2 <= List.length history)%nat ->
        exists newEntry rest,
          AppState.activityLog st' = newEntry :: rest
          /\ ActivityLogEntry.data newEntry = chat_session history).

(* ===================================================================== *)
(** ** Sample inputs                                                      *)
(* ===================================================================== *)

Module Sample.

(** An orchestrator that leaves the vector alone and grants ten points. *)
Definition orchestrate (_ : EntryData.t) (v : CoherenceVector)
  : CoherenceVector * Z := (v, 10).

(** The zone of Brasilia, three hours behind UTC. *)
Definition tz : Z := - (3 * 60 * 60 * 1000).

Definition summarizeTool (_ : ToolId) (_ : Any) : option string :=
  Some "resumo"%string.

Definition summarizeChat (_ : list Message.t) : option string :=
  Some "resumo"%string.

Definition greeting : Message.t :=
  Message.mk "agent-initial-coherence" agent "Bem-vindo." 1000.

Definition reply : Message.t :=
  Message.mk "user-2000" user "Quero conversar." 2000.

Definition chat_state (mode : Mode) (origin : Origin) : AppState.t :=
  AppState.mk initialVector 0 None "" dashboard
    (Some (CurrentSession.mk (session_agent COHERENCE None None)
                             (Some mode) (Some origin)))
    (fun _ => Some [greeting; reply]) [] initialGuideState [] [] false
    None nav_null 0 0 None None [].

(** A voice chat with the coherence mentor, opened from the voice
    navigator, in which the user has answered the greeting. *)
Definition voice_chat_state : AppState.t :=
  chat_state voice_mode origin_voice.

(** The same chat, opened by hand and held in text. *)
Definition text_chat_state : AppState.t :=
  chat_state text_mode origin_manual.

Definition journal_use : EntryData.t :=
  EntryData.mk SELF_KNOWLEDGE (tool_usage therapeutic_journal "{}"%string).

Definition meditation_use : EntryData.t :=
  EntryData.mk COHERENCE (tool_usage meditation "{}"%string).

(** A store whose last activity was logged at [last]. *)
Definition state_last_active (last streak : Z) : AppState.t :=
  AppState.set_coherenceStreak streak
    (AppState.set_lastActivityTimestamp (Some last) initialState).

(** A daily meditation reminder first due at 08:00 UTC on 11 January
    1970. *)
Definition morning_meditation : Schedule.t :=
  Schedule.mk "schedule-1" act_meditation
              (10 * JsDate.msPerDay + 8 * 60 * 60 * 1000)
              scheduled daily None.

Definition state_with_reminder : AppState.t :=
  AppState.set_schedules [morning_meditation] initialState.

Definition storage_name : string :=
  "portals-of-consciousness-storage"%string.

Definition sample_entry (n : nat) : ActivityLogEntry.t :=
  ActivityLogEntry.mk (activity_ (Z.of_nat n)) (Z.of_nat n) COHERENCE
                      initialVector (tool_usage meditation "{}"%string).

(** A log of [n] entries, the most recent first. *)
Definition sample_log (n : nat) : list ActivityLogEntry.t :=
  map sample_entry (rev (seq 1 n)).

Definition doc_with_log (n : nat) : Storage.PersistedDoc :=
  Storage.mkDoc (Some (sample_log n)) (Some []) (Some []) "{}"%string.

(** A browser whose quota lets through a blob of at most fifteen
    activities. *)
Definition fifteen_entries_fit (_ : string) (value : Storage.StoredString)
  : option Storage.JsError :=
  match Storage.log_size (Some value) with
  | Some n =>
      if (n <=? 15)%nat then None else Some Storage.QuotaExceededError
  | None => None
  end.

Definition world_with_log (n : nat) : Storage.World :=
  Storage.mkWorld
    (fun k => if String.eqb k storage_name
              then Some (Storage.json_text (doc_with_log n)) else None)
    [].

End Sample.

(* ===================================================================== *)
(** ** Further actions of the store                                       *)
(* ===================================================================== *)

Definition AgentId_eq_dec (a b : AgentId) : {a = b} + {a <> b}.
Proof. decide equality. Defined.

Definition set_chatHistories (x : AgentId -> option (list Message.t))
    (s : AppState.t) : AppState.t :=
  AppState.mk (AppState.coherenceVector s) (AppState.ucs s)
    (AppState.recommendation s) (AppState.recommendationName s)
    (AppState.activeView s) (AppState.currentSession s) x
    (AppState.schedules s) (AppState.guideState s)
    (AppState.completedTours s) (AppState.activityLog s)
    (AppState.isVoiceNavOpen s) (AppState.reconnectionAgentId s)
    (AppState.proactiveNavContext s) (AppState.coherencePoints s)
    (AppState.coherenceStreak s) (AppState.lastActivityTimestamp s)
    (AppState.activeQuest s) (AppState.completedQuests s).

(** [draft.chatHistories[agentId] = history]. *)
Definition put_history (agentId : AgentId) (history : list Message.t)
    (h : AgentId -> option (list Message.t))
  : AgentId -> option (list Message.t) :=
  fun a => if AgentId_eq_dec a agentId then Some history else h a.

Definition setCoherenceVector (newVector : CoherenceVector)
    (draft : AppState.t) : AppState.t :=
  let draft := AppState.set_coherenceVector newVector draft in
  let draft :=
    AppState.set_ucs (calculateUcs (AppState.coherenceVector draft)) draft in
  let newRecommendation :=
    getPicRecommendation (AppState.coherenceVector draft) in
  let draft :=
    AppState.set_recommendation
      (Some (Recommendation.agentId newRecommendation)) draft in
  AppState.set_recommendationName
    (Recommendation.dimensionName newRecommendation) draft.

Definition closeVoiceNav (st : AppState.t) : AppState.t :=
  AppState.set_proactiveNavContext nav_null
    (AppState.set_reconnectionAgentId None
       (AppState.set_isVoiceNavOpen false st)).

Definition addMessagesToHistory (agentId : AgentId)
    (messages : list Message.t) (draft : AppState.t) : AppState.t :=
  let history :=
    match AppState.chatHistories draft agentId with
    | Some history => history
    | None => []
    end in
  set_chatHistories
    (put_history agentId (history ++ messages) (AppState.chatHistories draft))
    draft.

Section Greeting.

(** [AGENTS[agentId]?.initialMessage] (constants.tsx): the greeting of an
    agent, [None] when it has none. *)
Variable initialMessageOf : AgentId -> option string.

Definition addInitialMessage (agentId : AgentId) (now : Z)
    (draft : AppState.t) : AppState.t :=
  match initialMessageOf agentId, AppState.chatHistories draft agentId with
  | Some text, Some history =>
      if truthy_string text && (Z.of_nat (List.length history) =? 0) then
        let initialMessage :=
          Message.mk (String.append "agent-initial-" (AgentId_value agentId))
                     agent text now in
        set_chatHistories
          (put_history agentId (history ++ [initialMessage])
                       (AppState.chatHistories draft))
          draft
      else draft
  | _, _ => draft
  end.

End Greeting.

(** The synchronous actions modelled, as values: one step of the store
    is an action and the time at which it runs. *)
Inductive StoreAction : Type :=
| LogActivity (entryData : EntryData.t)
| SetCoherenceVector (newVector : CoherenceVector)
| EndSession (isManualExit : bool) (toolResult : option (ToolId * Any))
| HandleScheduleCompletion (scheduleId : string)
| Guide (a : GuideAction)
| AddMessagesToHistory (agentId : AgentId) (messages : list Message.t)
| AddInitialMessage (agentId : AgentId)
| OpenVoiceNav
| CloseVoiceNav
| SetView (view : View).

Section StoreRuns.

Variable orchestrate : EntryData.t -> CoherenceVector -> CoherenceVector * Z.
Variable tz : Z.
Variable summarizeToolResultForEngagement : ToolId -> Any -> option string.
Variable summarizeForProactiveEngagement : list Message.t -> option string.
Variable initialMessageOf : AgentId -> option string.

Definition store_apply (a : StoreAction) (now : Z) (st : AppState.t)
  : AppState.t :=
  match a with
  | LogActivity entryData => logActivity orchestrate tz entryData now st
  | SetCoherenceVector newVector => setCoherenceVector newVector st
  | EndSession isManualExit toolResult =>
      endSession orchestrate tz summarizeToolResultForEngagement
                 summarizeForProactiveEngagement isManualExit toolResult now st
  | HandleScheduleCompletion scheduleId =>
      handleScheduleCompletion tz scheduleId now st
  | Guide g => guide_apply g st
  | AddMessagesToHistory agentId messages =>
      addMessagesToHistory agentId messages st
  | AddInitialMessage agentId =>
      addInitialMessage initialMessageOf agentId now st
  | OpenVoiceNav => openVoiceNav st
  | CloseVoiceNav => closeVoiceNav st
  | SetView view => setView view st
  end.

Definition store_run (steps : list (StoreAction * Z)) (st : AppState.t)
  : AppState.t :=
  fold_left (fun s step => store_apply (fst step) (snd step) s) steps st.

End StoreRuns.

(** The derived scalars agree with the vector. *)
Definition derived_consistent (st : AppState.t) : Prop :=
  AppState.ucs st = calculateUcs (AppState.coherenceVector st)
  /\ AppState.recommendation st
     = Some (Recommendation.agentId
               (getPicRecommendation (AppState.coherenceVector st)))
  /\ AppState.recommendationName st
     = Recommendation.dimensionName
         (getPicRecommendation (AppState.coherenceVector st)).


(* ===================================================================== *)
(** ** Chart data (components/Evolution.tsx, components/JourneyHistory.tsx) *)
(* ===================================================================== *)

Inductive Period : Type := period_7d | period_30d.

Module ChartPoint.
Record t : Type := mk {
  timestamp : Z;
  ucs : Z
}.
End ChartPoint.

(** [points.sort((a, b) => a.timestamp - b.timestamp)]: the sort of
    JavaScript is stable, and so is this insertion sort, a point going in
    front of the points of the same timestamp that followed it. *)
Fixpoint insert_point (p : ChartPoint.t) (l : list ChartPoint.t)
  : list ChartPoint.t :=
  match l with
  | [] => [p]
  | q :: r =>
      if ChartPoint.timestamp p <=? ChartPoint.timestamp q
      then p :: q :: r
      else q :: insert_point p r
  end.

Definition sort_points (l : list ChartPoint.t) : list ChartPoint.t :=
  fold_right insert_point [] l.

Definition chartData (period : Period) (now : Z)
    (activityLog : list ActivityLogEntry.t) : list ChartPoint.t :=
  let periodInDays := match period with period_7d => 7 | period_30d => 30 end in
  let startDate := JsDate.addDays now (- periodInDays) in
  sort_points
    (map (fun entry =>
            ChartPoint.mk (ActivityLogEntry.timestamp entry)
                          (calculateUcs (ActivityLogEntry.vectorSnapshot entry)))
         (filter (fun entry => startDate <=? ActivityLogEntry.timestamp entry)
                 activityLog)).

(** The vector, the scalars derived from it and the log: what the
    session, guide, schedule and chat actions leave alone. *)
Definition core (st : AppState.t)
  : CoherenceVector * Z * option AgentId * string
    * list ActivityLogEntry.t :=
  (AppState.coherenceVector st, AppState.ucs st, AppState.recommendation st,
   AppState.recommendationName st, AppState.activityLog st).

(** The quests of a store. *)
Definition quest_state (st : AppState.t)
  : option CoherenceQuest.t * list CoherenceQuest.t :=
  (AppState.activeQuest st, AppState.completedQuests st).

(** The streak is at least 1 once an activity was logged at a time other
    than the epoch, and at most [n] after [n] activities. *)
Definition streak_inv (n : Z) (st : AppState.t) : Prop :=
  0 <= AppState.coherenceStreak st <= n
  /\ (forall last, AppState.lastActivityTimestamp st = Some last ->
                   last <> 0 -> 1 <= AppState.coherenceStreak st).


(** [vector[k] = d] on a copy of the vector. *)
Definition vset (vector : CoherenceVector) (k : DimensionKey)
    (d : DimensionState) : CoherenceVector :=
  match k with
  | K_proposito =>
      mkVector (alinhamentoPAC vector) d (mental vector) (relacional vector)
               (emocional vector) (somatico vector) (eticoAcao vector)
               (recursos vector)
  | K_mental =>
      mkVector (alinhamentoPAC vector) (proposito vector) d
               (relacional vector) (emocional vector) (somatico vector)
               (eticoAcao vector) (recursos vector)
  | K_relacional =>
      mkVector (alinhamentoPAC vector) (proposito vector) (mental vector) d
               (emocional vector) (somatico vector) (eticoAcao vector)
               (recursos vector)
  | K_emocional =>
      mkVector (alinhamentoPAC vector) (proposito vector) (mental vector)
               (relacional vector) d (somatico vector) (eticoAcao vector)
               (recursos vector)
  | K_somatico =>
      mkVector (alinhamentoPAC vector) (proposito vector) (mental vector)
               (relacional vector) (emocional vector) d (eticoAcao vector)
               (recursos vector)
  | K_eticoAcao =>
      mkVector (alinhamentoPAC vector) (proposito vector) (mental vector)
               (relacional vector) (emocional vector) (somatico vector) d
               (recursos vector)
  | K_recursos =>
      mkVector (alinhamentoPAC vector) (proposito vector) (mental vector)
               (relacional vector) (emocional vector) (somatico vector)
               (eticoAcao vector) d
  end.

(* ===================================================================== *)
(** ** getPrayerSuggestions (components/Evolution.tsx)                    *)
(* ===================================================================== *)

Module Suggestion.
Record t : Type := mk {
  key : DimensionKey;
  value : Q;
  themes : list string
}.
End Suggestion.

(** [suggestions.sort((a, b) => b.value - a.value)]: descending and
    stable, a row going in front of the rows of no greater value that
    followed it. *)
Fixpoint insert_suggestion (s : Suggestion.t) (l : list Suggestion.t)
  : list Suggestion.t :=
  match l with
  | [] => [s]
  | r :: rest =>
      if Qle_bool (Suggestion.value r) (Suggestion.value s)
      then s :: r :: rest
      else r :: insert_suggestion s rest
  end.

Definition sort_suggestions (l : list Suggestion.t) : list Suggestion.t :=
  fold_right insert_suggestion [] l.

(** [finalSuggestions.add(theme)] on a [Set], which keeps the order of
    first insertion. *)
Definition set_add (theme : string) (set : list string) : list string :=
  if existsb (String.eqb theme) set then set else set ++ [theme].

Definition prayer_suggestions (vector : CoherenceVector)
  : list Suggestion.t :=
  [ Suggestion.mk K_proposito (dissonancia (proposito vector))
      ["encontrar meu propósito"; "fortalecer a fé"]%string;
    Suggestion.mk K_emocional (dissonancia (emocional vector))
      ["paz para um coração ansioso"; "cura emocional"]%string;
    Suggestion.mk K_somatico (dissonancia (somatico vector))
      ["restauração da saúde"; "força para o corpo"]%string;
    Suggestion.mk K_recursos (dissonancia (recursos vector))
      ["abertura de caminhos financeiros"; "sabedoria para prosperar"]%string ].

Definition getPrayerSuggestions (vector : CoherenceVector) : list string :=
  let suggestions := prayer_suggestions vector in
  let sortedStates := sort_suggestions suggestions in
  let finalSuggestions :=
    fold_left
      (fun set state =>
         fold_left (fun set theme => set_add theme set)
                   (Suggestion.themes state) set)
      (firstn 2 sortedStates) [] in
  firstn 4 finalSuggestions.

(* ===================================================================== *)
(** ** getFriendlyErrorMessage (utils/errorUtils.ts)                      *)
(* ===================================================================== *)

Module ErrorUtils.

(** What a [catch] block can receive, as far as the function tells the
    cases apart.  A [DOMException] is an [Error] too.  Of any other
    object, [error_message] is [error?.error?.message] and [text] is what
    its [toString] returns ([None] without a [toString]). *)
Inductive ErrorValue : Type :=
| dom_exception (name message : string)
| error_object (message : string)
| string_value (s : string)
| object_value (error_message : option string) (text : option string)
| nullish.

Definition micDenied : string :=
  "A permissão para usar o microfone foi negada. Por favor, verifique as permissões do seu navegador e do seu sistema operacional (Windows/macOS) e tente novamente.".

Definition micNotFound : string :=
  "Nenhum microfone foi encontrado. Por favor, conecte um microfone e tente novamente.".

Definition networkError : string :=
  "Erro de rede. Verifique sua conexão com a internet e tente novamente. Se o problema persistir, pode haver uma instabilidade no serviço.".

Definition micDeniedBySystem : string :=
  "A permissão para usar o microfone foi negada pelo sistema operacional. Verifique as configurações de privacidade do seu dispositivo (Windows/macOS) para permitir o acesso ao microfone pelo navegador.".

Definition quotaExceeded : string :=
  "Você excedeu sua cota de uso da API. Por favor, verifique seu plano e faturamento. Para mais detalhes, acesse: ai.google.dev/gemini-api/docs/billing".

Definition apiKeyInvalid : string :=
  "Sua chave de API não foi encontrada ou é inválida. Por favor, selecione uma chave de API válida para continuar.".

Definition badRequest : string :=
  "Ocorreu um erro de requisição inválida. Por favor, verifique os dados e tente novamente.".


(** [s.includes(needle)]. *)
Fixpoint includes (s needle : string) : bool :=
  if String.prefix needle s then true
  else match s with
       | EmptyString => false
       | String _ rest => includes rest needle
       end.

Section Classifier.

(** [s.toLowerCase()]. *)
Variable toLowerCase : string -> string.

(** Step 2: the text of the error. *)
Definition errorMessageOf (error : ErrorValue) : string :=
  match error with
  | dom_exception _ message => message
  | error_object message => message
  | string_value s => s
  | object_value (Some message) text =>
      if negb (String.eqb message "") then message
      else match text with Some t => t | None => ""%string end
  | object_value None (Some t) => t
  | object_value None None => ""%string
  | nullish => ""%string
  end.

(** Step 3: the markers, in the order of the source. *)
Definition classifyMessage (errorMessage defaultMessage : string) : string :=
  if includes (toLowerCase errorMessage) "network error" then networkError
  else if includes errorMessage "Permission denied by system"
  then micDeniedBySystem
  else if includes errorMessage "RESOURCE_EXHAUSTED"
          || includes errorMessage "429"
  then quotaExceeded
  else if includes errorMessage "API key not found"
          || includes errorMessage "PERMISSION_DENIED"
          || includes errorMessage "Requested entity was not found"
  then apiKeyInvalid
  else if includes errorMessage "permission denied"
          && negb (includes (toLowerCase errorMessage) "microphone")
  then apiKeyInvalid
  else if includes errorMessage "400"
          && (includes errorMessage "Invalid"
              || includes errorMessage "request is invalid")
  then badRequest
  else defaultMessage.

Definition getFriendlyErrorMessage (error : ErrorValue)
    (defaultMessage : string) : string :=
  match error with
  | dom_exception name _ =>
      if String.eqb name "NotAllowedError" then micDenied
      else if String.eqb name "NotFoundError" then micNotFound
      else classifyMessage (errorMessageOf error) defaultMessage
  | _ => classifyMessage (errorMessageOf error) defaultMessage
  end.

End Classifier.

(** A lower-casing of the letters A to Z, which is what [toLowerCase]
    does to a text without other capitals. *)
Definition lower_ascii (c : Ascii.ascii) : Ascii.ascii :=
  let n := Ascii.nat_of_ascii c in
  if ((65 <=? n) && (n <=? 90))%nat then Ascii.ascii_of_nat (n + 32) else c.

Fixpoint lower (s : string) : string :=
  match s with
  | EmptyString => EmptyString
  | String c rest => String (lower_ascii c) (lower rest)
  end.

End ErrorUtils.

(* ===================================================================== *)
(** * Properties                                                          *)
(* ===================================================================== *)

(** ** Comparisons on rationals *)

Local Open Scope Q_scope.

Lemma Qle_bool_spec (a b : Q) : reflect (a <= b) (Qle_bool a b).
Proof.
  destruct (Qle_bool a b) eqn:E; constructor.
  - now apply Qle_bool_iff.
  - intro H. apply Qle_bool_iff in H. congruence.
Qed.

Lemma gtb_spec (a b : Q) : reflect (b < a) (JsMath.gtb a b).
Proof.
  unfold JsMath.gtb. destruct (Qle_bool_spec a b); constructor; lra.
Qed.

(** ** calculateUcs *)

Lemma clamp_agrees (x y : Q) :
  x == y -> JsMath.max 0 (JsMath.min 100 x) == UcsSpec.clamp y 0 100.
Proof.
  intro E. unfold JsMath.max, JsMath.min, UcsSpec.clamp.
  destruct (Qle_bool_spec 100 x), (Qle_bool_spec y 0), (Qle_bool_spec 100 y);
    try destruct (Qle_bool_spec 0 100); try destruct (Qle_bool_spec 0 x);
    try lra.
Qed.



(** The value the source clamps is the value the specification clamps. *)
Lemma finalScore_agrees (v : CoherenceVector) :
  let dimensions := ucs_dimensions in
  let totalCoherence :=
    fold_left (fun sum dim => sum + coerencia (vget v dim)) dimensions 0 in
  let totalDissonance :=
    fold_left (fun sum dim => sum + dissonancia (vget v dim)) dimensions 0 in
  let len := inject_Z (Z.of_nat (List.length dimensions)) in
  ((totalCoherence / len - totalDissonance / len)
     * ((alinhamentoPAC v / 100) * (2 # 10) + (9 # 10)) + 100) / 2
  == (UcsSpec.netCoherence v * UcsSpec.factor v + 100) / 2.
Proof.
  unfold UcsSpec.netCoherence, UcsSpec.factor, UcsSpec.mean7. cbn.
  field.
Qed.




(** The score of the store's default vector. *)
Example calculateUcs_initialVector : calculateUcs initialVector = 66%Z.
Proof. vm_compute. reflexivity. Qed.

(** ** getPicRecommendation *)

Lemma pic_step_inv v pre acc d :
  0 <= entry_dissonance v d ->
  scan_inv v pre acc -> scan_inv v (pre ++ [d]) (pic_step v acc d).
Proof.
  intros Hd Hinv. destruct acc as [h r]. unfold pic_step.
  fold (entry_dissonance v d). fold (entry_recommendation d).
  destruct Hinv as [(Hpre & Hh & Hr) | (i & d0 & Hi & Hh & Hr & Hall & Hbefore)];
    cbn [fst snd] in *.
  - subst pre h. right. exists 0%nat, d.
    destruct (gtb_spec (entry_dissonance v d) (-1)) as [_ | Hn]; [| lra].
    cbn. repeat split; try reflexivity.
    + intros d' [<- | []]. lra.
    + intros j d' Hj. inversion Hj.
  - right. destruct (gtb_spec (entry_dissonance v d) h) as [Hgt | Hle].
    + exists (List.length pre), d. cbn [fst snd].
      repeat split; try reflexivity.
      * rewrite nth_error_app2, Nat.sub_diag by lia. reflexivity.
      * intros d' Hin. apply in_app_or in Hin.
        destruct Hin as [Hin | [<- | []]]; [| lra].
        specialize (Hall d' Hin). lra.
      * intros j d' Hj Hnth. rewrite nth_error_app1 in Hnth by exact Hj.
        apply nth_error_In in Hnth. specialize (Hall d' Hnth). lra.
    + exists i, d0. cbn [fst snd].
      assert (Hlt : (i < List.length pre)%nat)
        by (apply nth_error_Some; congruence).
      repeat split; try assumption.
      * rewrite nth_error_app1 by exact Hlt. exact Hi.
      * intros d' Hin. apply in_app_or in Hin.
        destruct Hin as [Hin | [<- | []]]; [now apply Hall | lra].
      * intros j d' Hj Hnth. rewrite nth_error_app1 in Hnth by lia.
        now apply (Hbefore j).
Qed.

Lemma pic_scan_inv v suf : forall pre acc,
  (forall d, In d suf -> 0 <= entry_dissonance v d) ->
  scan_inv v pre acc -> scan_inv v (pre ++ suf) (pic_scan v suf acc).
Proof.
  induction suf as [| d suf IH]; intros pre acc Hnn Hinv.
  - rewrite app_nil_r. exact Hinv.
  - cbn [pic_scan fold_left].
    replace (pre ++ d :: suf) with ((pre ++ [d]) ++ suf)
      by (rewrite <- app_assoc; reflexivity).
    apply IH.
    + intros d' Hin. apply Hnn. now right.
    + apply pic_step_inv; [apply Hnn; now left | exact Hinv].
Qed.

Lemma table_covers_keys (k : DimensionKey) :
  exists d, In d pic_dimensions /\ DimensionEntry.key d = k.
Proof.
  pose (row n := nth n pic_dimensions
                     (DimensionEntry.mk K_proposito COHERENCE "")).
  destruct k;
    [ exists (row 0%nat) | exists (row 1%nat) | exists (row 2%nat)
    | exists (row 3%nat) | exists (row 4%nat) | exists (row 5%nat)
    | exists (row 6%nat) ];
    cbn; tauto.
Qed.

Lemma pic_scan_result (v : CoherenceVector) :
  nonneg_dissonance v ->
  exists i d,
    nth_error pic_dimensions i = Some d
    /\ getPicRecommendation v = entry_recommendation d
    /\ (forall d', In d' pic_dimensions ->
                   entry_dissonance v d' <= entry_dissonance v d)
    /\ (forall j d', (j < i)%nat -> nth_error pic_dimensions j = Some d' ->
                     entry_dissonance v d' < entry_dissonance v d).
Proof.
  intro Hnn.
  destruct (@pic_scan_inv v pic_dimensions [] (-1, fallback_recommendation))
    as [(Hnil & _) | (i & d & Hi & Hh & Hr & Hall & Hbefore)].
  - intros d _. apply Hnn.
  - left. repeat split; reflexivity.
  - discriminate Hnil.
  - cbn [app] in *. exists i, d. rewrite <- Hh.
    repeat split; try assumption.
Qed.

(** C4. For every coherence vector (its dissonances being non-negative,
    as the data model has them), [getPicRecommendation] returns the agent
    and the label of a dimension of maximum dissonance, and of the
    earliest such dimension in the canonical order purpose, mental,
    relational, emotional, somatic, ethical action, resources: every
    dimension before it has strictly less dissonance. *)
Theorem getPicRecommendation_max_dissonance (v : CoherenceVector) :
  nonneg_dissonance v ->
  map DimensionEntry.key pic_dimensions = canonical_order
  /\ exists i d,
       nth_error pic_dimensions i = Some d
       /\ getPicRecommendation v = entry_recommendation d
       /\ (forall k, dissonancia (vget v k) <= entry_dissonance v d)
       /\ (forall j d', (j < i)%nat -> nth_error pic_dimensions j = Some d' ->
                        entry_dissonance v d' < entry_dissonance v d).
Proof.
  intro Hnn. split; [reflexivity |].
  destruct (pic_scan_result Hnn) as (i & d & Hi & Hrec & Hall & Hbefore).
  exists i, d. repeat split; try assumption.
  intro k. destruct (table_covers_keys k) as (d' & Hin & <-).
  now apply Hall.
Qed.

Lemma initialVector_nonneg : nonneg_dissonance initialVector.
Proof.
  intro k; destruct k; cbn; unfold Qle; cbn; lia.
Defined.

Lemma getPicRecommendation_max_dissonance_witness :
  nonneg_dissonance initialVector
  /\ map DimensionEntry.key pic_dimensions = canonical_order
  /\ exists i d,
       nth_error pic_dimensions i = Some d
       /\ getPicRecommendation initialVector = entry_recommendation d
       /\ (forall k, dissonancia (vget initialVector k)
                     <= entry_dissonance initialVector d)
       /\ (forall j d', (j < i)%nat -> nth_error pic_dimensions j = Some d' ->
                        entry_dissonance initialVector d'
                        < entry_dissonance initialVector d).
Proof.
  split; [exact initialVector_nonneg |].
  exact (getPicRecommendation_max_dissonance initialVector_nonneg).
Defined.

(** The default vector is most dissonant in its resources; a tie between
    the mental and the emotional dimension goes to the mental one. *)
Example getPicRecommendation_examples :
  getPicRecommendation initialVector
  = Recommendation.mk EMOTIONAL_FINANCE "Recursos"
  /\ getPicRecommendation
       (mkVector 70 (mkDim 60 30) (mkDim 75 50) (mkDim 65 35) (mkDim 50 50)
                 (mkDim 70 20) (mkDim 80 10) (mkDim 55 40))
     = Recommendation.mk SELF_KNOWLEDGE "Mental".
Proof. split; vm_compute; reflexivity. Qed.

(** C9. For every coherence vector whose seven dissonances are
    non-negative, [getPicRecommendation] returns one of the seven rows of
    its lookup table and never the fallback (the coherence agent with the
    label Geral) it starts from: the first dimension scanned, whose
    dissonance exceeds the sentinel -1, already replaces the fallback. *)
Theorem getPicRecommendation_never_fallback (v : CoherenceVector) :
  nonneg_dissonance v ->
  In (getPicRecommendation v) (map entry_recommendation pic_dimensions)
  /\ getPicRecommendation v <> fallback_recommendation
  /\ snd (pic_scan v (firstn 1 pic_dimensions) (-1, fallback_recommendation))
     = Recommendation.mk SELF_KNOWLEDGE "Propósito".
Proof.
  intro Hnn.
  destruct (pic_scan_result Hnn) as (i & d & Hi & Hrec & _).
  apply nth_error_In in Hi.
  assert (Hin : In (getPicRecommendation v)
                   (map entry_recommendation pic_dimensions))
    by (rewrite Hrec; now apply in_map).
  split; [exact Hin | split].
  - intro Heq. rewrite Heq in Hin. cbn in Hin.
    repeat (destruct Hin as [Hin | Hin]; [discriminate Hin |]). exact Hin.
  - cbn [firstn pic_dimensions pic_scan fold_left pic_step DimensionEntry.key
         DimensionEntry.agent DimensionEntry.name vget].
    destruct (gtb_spec (dissonancia (proposito v)) (-1)) as [_ | Hn].
    + reflexivity.
    + specialize (Hnn K_proposito). cbn in Hnn. lra.
Qed.

Lemma balanced_vector_nonneg : nonneg_dissonance balanced_vector.
Proof.
  intro k; destruct k; cbn; unfold Qle; cbn; lia.
Defined.

Lemma getPicRecommendation_never_fallback_witness :
  nonneg_dissonance balanced_vector
  /\ In (getPicRecommendation balanced_vector)
        (map entry_recommendation pic_dimensions)
  /\ getPicRecommendation balanced_vector <> fallback_recommendation
  /\ snd (pic_scan balanced_vector (firstn 1 pic_dimensions)
                   (-1, fallback_recommendation))
     = Recommendation.mk SELF_KNOWLEDGE "Propósito".
Proof.
  split; [exact balanced_vector_nonneg |].
  exact (getPicRecommendation_never_fallback balanced_vector_nonneg).
Defined.

(** Below the sentinel the fallback does come back. *)
Example getPicRecommendation_fallback_below_sentinel :
  getPicRecommendation
    (let d := mkDim 50 (-2) in mkVector 70 d d d d d d d)
  = fallback_recommendation.
Proof. vm_compute. reflexivity. Qed.

(** ** logActivity *)

Local Open Scope Z_scope.

Section LogActivityFacts.

Variable orchestrate : EntryData.t -> CoherenceVector -> CoherenceVector * Z.
Variable tz : Z.

(** The quest and streak parts of the recipe leave the log and the
    vector alone. *)
Lemma completeQuest_frame entryData now draft :
  let draft' := completeQuest entryData now draft in
  AppState.activityLog draft' = AppState.activityLog draft
  /\ AppState.coherenceVector draft' = AppState.coherenceVector draft
  /\ AppState.coherenceStreak draft' = AppState.coherenceStreak draft
  /\ AppState.lastActivityTimestamp draft'
     = AppState.lastActivityTimestamp draft.
Proof.
  unfold completeQuest.
  destruct (AppState.activeQuest draft) as [quest |]; [| now cbn].
  destruct (negb (CoherenceQuest.isCompleted quest) && _); now cbn.
Qed.

Lemma updateStreak_frame now draft :
  let draft' := updateStreak tz now draft in
  AppState.activityLog draft' = AppState.activityLog draft
  /\ AppState.coherenceVector draft' = AppState.coherenceVector draft.
Proof.
  unfold updateStreak.
  repeat match goal with
         | |- context [if ?c then _ else _] => destruct c
         | |- context [match ?c with Some _ => _ | None => _ end] => destruct c
         end; now cbn.
Qed.

Lemma truncate_log_firstn l : truncate_log l = firstn 100 l.
Proof.
  unfold truncate_log. destruct (Z.ltb_spec 100 (Z.of_nat (List.length l))).
  - reflexivity.
  - symmetry. apply firstn_all2. lia.
Qed.

(** What follows the quest and streak parts of the recipe, on any
    draft. *)
Lemma logActivity_tail_frame entryData now d :
  let d' :=
    AppState.set_lastActivityTimestamp (Some now)
      (updateStreak tz now (completeQuest entryData now d)) in
  AppState.activityLog d' = AppState.activityLog d
  /\ AppState.coherenceVector d' = AppState.coherenceVector d.
Proof.
  cbv zeta.
  change (AppState.activityLog (AppState.set_lastActivityTimestamp ?x ?s))
    with (AppState.activityLog s).
  change (AppState.coherenceVector (AppState.set_lastActivityTimestamp ?x ?s))
    with (AppState.coherenceVector s).
  rewrite (proj1 (updateStreak_frame now _)).
  rewrite (proj2 (updateStreak_frame now _)).
  rewrite (proj1 (completeQuest_frame entryData now _)).
  rewrite (proj1 (proj2 (completeQuest_frame entryData now _))).
  split; reflexivity.
Qed.

Lemma logActivity_log entryData now st :
  AppState.activityLog (logActivity orchestrate tz entryData now st)
  = firstn 100
      (newEntryOf entryData now
         (fst (orchestrate entryData (AppState.coherenceVector st)))
       :: AppState.activityLog st).
Proof.
  unfold logActivity.
  destruct (orchestrate entryData (AppState.coherenceVector st))
    as [newVector pointsGained].
  rewrite (proj1 (logActivity_tail_frame entryData now _)).
  cbn [AppState.activityLog AppState.set_recommendationName
       AppState.set_recommendation AppState.set_ucs
       AppState.set_coherencePoints AppState.set_coherenceVector
       AppState.set_activityLog fst].
  apply truncate_log_firstn.
Qed.

Lemma logActivity_vector entryData now st :
  AppState.coherenceVector (logActivity orchestrate tz entryData now st)
  = fst (orchestrate entryData (AppState.coherenceVector st)).
Proof.
  unfold logActivity.
  destruct (orchestrate entryData (AppState.coherenceVector st))
    as [newVector pointsGained].
  rewrite (proj2 (logActivity_tail_frame entryData now _)).
  reflexivity.
Qed.

(** C6. For every call to [logActivity], the entry it creates heads the
    log and its [vectorSnapshot] equals the store's [coherenceVector]
    right after the call: the vector the orchestrator returned for the
    vector the store held before the call. *)
Theorem logActivity_snapshot_is_new_vector entryData now st :
  exists newEntry rest,
    AppState.activityLog (logActivity orchestrate tz entryData now st)
    = newEntry :: rest
    /\ entry_call newEntry = (entryData, now)
    /\ ActivityLogEntry.vectorSnapshot newEntry
       = AppState.coherenceVector (logActivity orchestrate tz entryData now st)
    /\ ActivityLogEntry.vectorSnapshot newEntry
       = fst (orchestrate entryData (AppState.coherenceVector st)).
Proof.
  eexists _, _. rewrite logActivity_log, logActivity_vector.
  change (firstn 100 (?e :: ?l)) with (e :: firstn 99 l).
  split; [reflexivity |].
  destruct entryData. repeat split; reflexivity.
Qed.

Lemma firstn_cons_firstn {A} n (x : A) l :
  firstn (S n) (x :: firstn (S n) l) = firstn (S n) (x :: l).
Proof.
  change (firstn (S n) (x :: firstn (S n) l))
    with (x :: firstn n (firstn (S n) l)).
  change (firstn (S n) (x :: l)) with (x :: firstn n l).
  rewrite firstn_firstn. replace (Init.Nat.min n (S n)) with n by lia.
  reflexivity.
Qed.

Lemma logActivities_snoc calls c st :
  logActivities orchestrate tz (calls ++ [c]) st
  = logActivity orchestrate tz (fst c) (snd c)
      (logActivities orchestrate tz calls st).
Proof.
  unfold logActivities. rewrite fold_left_app. reflexivity.
Qed.

Lemma logActivities_calls calls st :
  (List.length (AppState.activityLog st) <= 100)%nat ->
  map entry_call (AppState.activityLog (logActivities orchestrate tz calls st))
  = firstn 100 (rev calls ++ map entry_call (AppState.activityLog st)).
Proof.
  intro Hlen. induction calls as [| c calls IH] using rev_ind.
  - cbn [rev app logActivities fold_left].
    symmetry. apply firstn_all2. rewrite length_map. exact Hlen.
  - rewrite logActivities_snoc, logActivity_log, <- firstn_map.
    cbn [map]. rewrite IH, rev_app_distr. cbn [rev app].
    rewrite (firstn_cons_firstn 99).
    destruct c as [entryData now]. destruct entryData. reflexivity.
Qed.

(** C5. The activity log is most-recent-first and holds at most 100
    entries: after any run of [logActivity] calls on a store whose log
    was empty, the log lists the calls from the last one back, cut after
    the hundredth (so it has [min n 100] entries after [n] calls, the
    hundred most recent when [n] exceeds 100), and one more call puts
    its entry in front and drops what falls beyond the hundredth. *)
Theorem activityLog_newest_first_capped calls st :
  AppState.activityLog st = [] ->
  let log :=
    AppState.activityLog (logActivities orchestrate tz calls st) in
  map entry_call log = firstn 100 (rev calls)
  /\ List.length log = Nat.min (List.length calls) 100
  /\ (forall entryData now,
        map entry_call
          (AppState.activityLog
             (logActivity orchestrate tz entryData now
                (logActivities orchestrate tz calls st)))
        = firstn 100 ((entryData, now) :: map entry_call log)).
Proof.
  intros Hempty log.
  assert (Hcalls : map entry_call log = firstn 100 (rev calls)).
  { unfold log. rewrite logActivities_calls by (rewrite Hempty; cbn; lia).
    rewrite Hempty, app_nil_r. reflexivity. }
  split; [exact Hcalls | split].
  - rewrite <- (length_map entry_call), Hcalls, length_firstn, length_rev.
    lia.
  - intros entryData now. rewrite logActivity_log, <- firstn_map.
    destruct entryData. reflexivity.
Qed.

(** ** The daily streak *)

Lemma updateStreak_ext now d1 d2 :
  AppState.lastActivityTimestamp d1 = AppState.lastActivityTimestamp d2 ->
  AppState.coherenceStreak d1 = AppState.coherenceStreak d2 ->
  AppState.coherenceStreak (updateStreak tz now d1)
  = AppState.coherenceStreak (updateStreak tz now d2).
Proof.
  intros Hts Hstreak. unfold updateStreak. rewrite Hts, Hstreak.
  repeat match goal with
         | |- context [if ?c then _ else _] => destruct c
         | |- context [match ?c with Some _ => _ | None => _ end] => destruct c
         end; cbn; congruence.
Qed.

Lemma logActivity_tail_streak entryData now d :
  AppState.coherenceStreak
    (AppState.set_lastActivityTimestamp (Some now)
       (updateStreak tz now (completeQuest entryData now d)))
  = AppState.coherenceStreak (updateStreak tz now d).
Proof.
  change (AppState.coherenceStreak (AppState.set_lastActivityTimestamp ?x ?s))
    with (AppState.coherenceStreak s).
  apply updateStreak_ext; apply (completeQuest_frame entryData now d).
Qed.

Lemma logActivity_streak_eq entryData now st :
  AppState.coherenceStreak (logActivity orchestrate tz entryData now st)
  = AppState.coherenceStreak (updateStreak tz now st).
Proof.
  unfold logActivity.
  destruct (orchestrate entryData (AppState.coherenceVector st))
    as [newVector pointsGained].
  rewrite logActivity_tail_streak.
  apply updateStreak_ext; reflexivity.
Qed.

(** Two instants two days apart or more fall on different local days. *)
Lemma two_days_apart_differ last now :
  2 * JsDate.msPerDay <= now - last ->
  JsDate.toDateString tz last <> JsDate.toDateString tz now.
Proof.
  unfold JsDate.toDateString, JsDate.localDay, JsDate.msPerDay.
  intros Hfar Heq.
  pose proof (Z.div_mod (last + tz) (24 * 60 * 60 * 1000) ltac:(lia)) as Hl.
  pose proof (Z.div_mod (now + tz) (24 * 60 * 60 * 1000) ltac:(lia)) as Hn.
  pose proof (Z.mod_pos_bound (last + tz) (24 * 60 * 60 * 1000) ltac:(lia)).
  pose proof (Z.mod_pos_bound (now + tz) (24 * 60 * 60 * 1000) ltac:(lia)).
  rewrite Heq in Hl. lia.
Qed.

(** C8. Each [logActivity] call updates the streak: a first activity
    yields 1; an activity on the calendar day of the previous one leaves
    the streak as it was; an activity on another day less than two days
    after the previous one adds 1; an activity two days or more after
    the previous one yields 1.  (A stored timestamp is a time after the
    epoch, which the source tells from no timestamp by its truthiness.) *)
Theorem logActivity_updates_streak entryData now st :
  AppState.lastActivityTimestamp st <> Some 0 ->
  let st' := logActivity orchestrate tz entryData now st in
  let streak := AppState.coherenceStreak st in
  let streak' := AppState.coherenceStreak st' in
  (AppState.lastActivityTimestamp st = None -> streak' = 1)
  /\ (forall last,
        AppState.lastActivityTimestamp st = Some last ->
        (JsDate.toDateString tz last = JsDate.toDateString tz now ->
         streak' = streak)
        /\ (JsDate.toDateString tz last <> JsDate.toDateString tz now ->
            now - last < 2 * JsDate.msPerDay ->
            streak' = streak + 1)
        /\ (2 * JsDate.msPerDay <= now - last -> streak' = 1))
  /\ AppState.lastActivityTimestamp st' = Some now.
Proof.
  intros Hnz st' streak streak'.
  assert (Hs : streak' = AppState.coherenceStreak (updateStreak tz now st))
    by apply logActivity_streak_eq.
  split; [| split].
  - intro Hnone. rewrite Hs. unfold updateStreak. rewrite Hnone. reflexivity.
  - intros last Hlast. rewrite Hs. unfold updateStreak. rewrite Hlast.
    assert (Hl : last <> 0) by (intro; subst; now apply Hnz).
    apply Z.eqb_neq in Hl. rewrite Hl.
    change (2 * 24 * 60 * 60 * 1000) with (2 * JsDate.msPerDay).
    split; [| split].
    + intro Hsame. apply Z.eqb_eq in Hsame. rewrite Hsame. reflexivity.
    + intros Hdiff Hnear. apply Z.eqb_neq in Hdiff. rewrite Hdiff.
      apply Z.ltb_lt in Hnear. cbn [negb]. rewrite Hnear. reflexivity.
    + intro Hfar. assert (Hdiff := Hfar).
      apply two_days_apart_differ in Hdiff.
      apply Z.eqb_neq in Hdiff. rewrite Hdiff.
      apply Z.ltb_ge in Hfar. cbn [negb]. rewrite Hfar. reflexivity.
  - unfold st', logActivity.
    destruct (orchestrate entryData (AppState.coherenceVector st)).
    reflexivity.
Qed.

End LogActivityFacts.

Lemma activityLog_newest_first_capped_witness :
  AppState.activityLog initialState = []
  /\ let calls := [(Sample.journal_use, 1000); (Sample.meditation_use, 2000)] in
     let log :=
       AppState.activityLog
         (logActivities Sample.orchestrate Sample.tz calls initialState) in
     map entry_call log = firstn 100 (rev calls)
     /\ List.length log = Nat.min (List.length calls) 100
     /\ (forall entryData now,
           map entry_call
             (AppState.activityLog
                (logActivity Sample.orchestrate Sample.tz entryData now
                   (logActivities Sample.orchestrate Sample.tz calls
                                  initialState)))
           = firstn 100 ((entryData, now) :: map entry_call log)).
Proof.
  split; [reflexivity |].
  exact (@activityLog_newest_first_capped Sample.orchestrate Sample.tz
           [(Sample.journal_use, 1000); (Sample.meditation_use, 2000)]
           initialState eq_refl).
Defined.

(** One hundred and one activities, logged at times 1 to 101: the log
    keeps those of times 101 down to 2. *)
Example activityLog_after_101_calls :
  map ActivityLogEntry.timestamp
    (AppState.activityLog
       (logActivities Sample.orchestrate Sample.tz
          (map (fun n => (Sample.meditation_use, Z.of_nat n)) (seq 1 101))
          initialState))
  = map Z.of_nat (rev (seq 2 100)).
Proof. vm_compute. reflexivity. Qed.

Lemma logActivity_updates_streak_witness :
  let st := Sample.state_last_active 1000000000000 4 in
  let now := 1000000000000 + 30 * 60 * 60 * 1000 in
  AppState.lastActivityTimestamp st <> Some 0
  /\ AppState.coherenceStreak
       (logActivity Sample.orchestrate Sample.tz Sample.meditation_use now st)
     = 5.
Proof.
  cbv zeta.
  assert (Hnz : AppState.lastActivityTimestamp
                  (Sample.state_last_active 1000000000000 4) <> Some 0)
    by (cbn; discriminate).
  split; [exact Hnz |].
  destruct (@logActivity_updates_streak Sample.orchestrate Sample.tz
              Sample.meditation_use
              (1000000000000 + 30 * 60 * 60 * 1000)
              (Sample.state_last_active 1000000000000 4) Hnz)
    as (_ & Hlast & _).
  destruct (Hlast 1000000000000 eq_refl) as (_ & Hnext & _).
  apply Hnext.
  - vm_compute. discriminate.
  - vm_compute. reflexivity.
Defined.

(** The four cases on concrete times, in the zone of Brasilia: no
    previous activity; forty minutes later the same day; thirty hours
    later; three days later. *)
Example streak_examples :
  let last := 1000000000000 in
  let streak_after st now :=
    AppState.coherenceStreak
      (logActivity Sample.orchestrate Sample.tz Sample.meditation_use now st) in
  streak_after initialState last = 1
  /\ streak_after (Sample.state_last_active last 4) (last + 40 * 60 * 1000) = 4
  /\ streak_after (Sample.state_last_active last 4)
                  (last + 30 * 60 * 60 * 1000) = 5
  /\ streak_after (Sample.state_last_active last 4)
                  (last + 3 * JsDate.msPerDay) = 1.
Proof. cbv zeta. repeat split; vm_compute; reflexivity. Qed.

(** ** endSession *)

Section EndSessionFacts.

Variable orchestrate : EntryData.t -> CoherenceVector -> CoherenceVector * Z.
Variable tz : Z.
Variable summarizeToolResultForEngagement : ToolId -> Any -> option string.
Variable summarizeForProactiveEngagement : list Message.t -> option string.

(** The voice path of [endSession] never touches the log. *)
Lemma endSession_voice_path_log isManualExit toolResult now st session :
  AppState.currentSession st = Some session ->
  shouldOpenVoiceNav session = true ->
  AppState.activityLog
    (endSession orchestrate tz summarizeToolResultForEngagement
                summarizeForProactiveEngagement isManualExit toolResult now st)
  = AppState.activityLog st.
Proof.
  intros Hcur Hnav. unfold endSession. rewrite Hcur, Hnav. cbv zeta.
  destruct (proactiveContextOf _ _ _ _ _ _); reflexivity.
Qed.

(** C2, as amended.  Ending a mentor chat whose history holds at most
    one message creates no entry.  Ending a mentor chat that does not
    return to the voice navigator (it was not opened by voice, or it is
    held in text) and whose history holds two or more messages puts in
    front of the log an entry of that agent, timestamped now, whose data
    are the whole transcript.  Ending a mentor chat that returns to the
    voice navigator creates no entry. *)
Theorem endSession_logs_manual_chat
    isManualExit toolResult now st session agentId autoStart isReconn history :
  AppState.currentSession st = Some session ->
  CurrentSession.session session = session_agent agentId autoStart isReconn ->
  AppState.chatHistories st agentId = Some history ->
  let st' :=
    endSession orchestrate tz summarizeToolResultForEngagement
               summarizeForProactiveEngagement isManualExit toolResult now st in
  ((List.length history <= 1)%nat ->
   AppState.activityLog st' = AppState.activityLog st)
  /\ (shouldOpenVoiceNav session = false ->
      (2 <= List.length history)%nat ->
      exists newEntry,
        AppState.activityLog st'
        = firstn 100 (newEntry :: AppState.activityLog st)
        /\ ActivityLogEntry.agentId newEntry = agentId
        /\ ActivityLogEntry.timestamp newEntry = now
        /\ ActivityLogEntry.data newEntry = chat_session history)
  /\ (shouldOpenVoiceNav session = true ->
      AppState.activityLog st' = AppState.activityLog st).
Proof.
  intros Hcur Hsess Hhist st'.
  destruct (shouldOpenVoiceNav session) eqn:Hnav.
  - pose proof (endSession_voice_path_log isManualExit toolResult now st
                  Hcur Hnav) as Hsame.
    split; [| split].
    + intros _. exact Hsame.
    + discriminate.
    + intros _. exact Hsame.
  - unfold st', endSession. rewrite Hcur, Hnav, Hsess, Hhist.
    cbn [AppState.activityLog AppState.set_proactiveNavContext
         AppState.set_reconnectionAgentId AppState.set_currentSession].
    split; [| split].
    + intro Hle.
      destruct (Z.ltb_spec 1 (Z.of_nat (List.length history))); [lia |].
      reflexivity.
    + intros _ Hge.
      destruct (Z.ltb_spec 1 (Z.of_nat (List.length history))); [| lia].
      rewrite logActivity_log. eexists. split; [reflexivity |].
      repeat split; reflexivity.
    + discriminate.
Qed.

End EndSessionFacts.

(** C2, as stated, fails: a voice chat opened from the voice navigator,
    with a greeting and a reply in its history, ends without an entry. *)
Lemma endSession_claim_fails_for_voice_chat :
  ~ endSession_claim Sample.orchestrate Sample.tz
      Sample.summarizeTool Sample.summarizeChat.
Proof.
  intro Hclaim.
  destruct (Hclaim true None 3000 Sample.voice_chat_state _ COHERENCE None None
                   [Sample.greeting; Sample.reply] eq_refl eq_refl eq_refl)
    as [_ Hlong].
  destruct (Hlong ltac:(cbn; lia)) as (newEntry & rest & Hlog & _).
  vm_compute in Hlog. discriminate Hlog.
Qed.

Lemma endSession_logs_manual_chat_witness :
  exists newEntry,
    AppState.activityLog
      (endSession Sample.orchestrate Sample.tz Sample.summarizeTool
                  Sample.summarizeChat true None 3000 Sample.text_chat_state)
    = firstn 100 (newEntry :: AppState.activityLog Sample.text_chat_state)
    /\ ActivityLogEntry.data newEntry
       = chat_session [Sample.greeting; Sample.reply].
Proof.
  destruct (@endSession_logs_manual_chat Sample.orchestrate Sample.tz
              Sample.summarizeTool Sample.summarizeChat true None 3000
              Sample.text_chat_state _ COHERENCE None None
              [Sample.greeting; Sample.reply] eq_refl eq_refl eq_refl)
    as (_ & Hlong & _).
  destruct (Hlong eq_refl ltac:(cbn; lia)) as (newEntry & Hlog & _ & _ & Hd).
  exists newEntry. split; assumption.
Defined.

(** ** handleScheduleCompletion *)


Lemma find_update_found scheduleId f l :
  (forall s, Schedule.id (f s) = Schedule.id s) ->
  find_schedule scheduleId (update_found scheduleId f l)
  = option_map f (find_schedule scheduleId l).
Proof.
  intro Hid. unfold find_schedule.
  induction l as [| s rest IH]; [reflexivity |].
  cbn [update_found find].
  destruct (String.eqb (Schedule.id s) scheduleId) eqn:E; cbn [find].
  - rewrite Hid, E. reflexivity.
  - rewrite E. exact IH.
Qed.

Lemma completeSchedule_id tz now s :
  Schedule.id (completeSchedule tz now s) = Schedule.id s.
Proof.
  unfold completeSchedule. destruct (Schedule.recurrence s); reflexivity.
Qed.




(** Due at 08:00 on day 10 and completed at 09:00 on day 13, the
    reminder moves to 08:00 on day 14; completed when due, to 08:00 on
    day 11. *)
Example handleScheduleCompletion_examples :
  let due := Schedule.time Sample.morning_meditation in
  let time_after now :=
    option_map Schedule.time
      (find_schedule "schedule-1"
         (AppState.schedules
            (handleScheduleCompletion Sample.tz "schedule-1" now
                                      Sample.state_with_reminder))) in
  time_after (13 * JsDate.msPerDay + 9 * 60 * 60 * 1000)
  = Some (due + 4 * JsDate.msPerDay)
  /\ time_after due = Some (due + 1 * JsDate.msPerDay).
Proof. cbv zeta. split; vm_compute; reflexivity. Qed.

(** ** The guide *)

Lemma endGuide_step st : guide_step (endGuide st) = 0.
Proof.
  unfold guide_step, endGuide, openVoiceNav, setView.
  destruct (GuideState.tourId (AppState.guideState st)) as [tid |];
    [| reflexivity].
  destruct (truthy_string tid);
    [destruct (includes _ _) |]; destruct (String.eqb tid "main");
    reflexivity.
Qed.

Lemma startGuide_step tourId context st :
  (GuideState.isActive (AppState.guideState st) = false ->
   guide_step (startGuide tourId context st) = 0)
  /\ (GuideState.isActive (AppState.guideState st) = true ->
      startGuide tourId context st = st).
Proof.
  unfold guide_step, startGuide.
  destruct (GuideState.isActive (AppState.guideState st));
    split; intro H; try discriminate H; reflexivity.
Qed.

Lemma guide_apply_nonneg a st :
  0 <= guide_step st -> 0 <= guide_step (guide_apply a st).
Proof.
  intro H. destruct a as [tourId context | | |]; cbn [guide_apply].
  - destruct (startGuide_step tourId context st) as [Hoff Hon].
    destruct (GuideState.isActive (AppState.guideState st)) eqn:E.
    + rewrite Hon by reflexivity. exact H.
    + rewrite Hoff by reflexivity. lia.
  - unfold guide_step, prevGuideStep. cbn. lia.
  - unfold guide_step, nextGuideStep in *. cbn. lia.
  - rewrite endGuide_step. lia.
Qed.

Lemma guide_run_nonneg l : forall st,
  0 <= guide_step st -> 0 <= guide_step (guide_run l st).
Proof.
  induction l as [| a l IH]; intros st H; [exact H |].
  cbn [guide_run fold_left]. apply IH, guide_apply_nonneg, H.
Qed.

Lemma guide_run_next n st :
  guide_step (guide_run (repeat NextGuideStep n) st)
  = guide_step st + Z.of_nat n.
Proof.
  revert st. induction n as [| n IH]; intro st.
  - cbn. lia.
  - cbn [repeat guide_run fold_left]. fold (guide_run (repeat NextGuideStep n)).
    rewrite IH. unfold guide_step, guide_apply, nextGuideStep. cbn. lia.
Qed.

(** C10. The step of the guide is never negative: [startGuide] (when no
    tour is active; otherwise it does nothing) and [endGuide] set it to
    0, [nextGuideStep] adds 1, [prevGuideStep] sets it to
    [max 0 (step - 1)]; so every guide action keeps a non-negative step
    non-negative, every run of guide actions from the initial store ends
    on a non-negative step, and no upper bound holds: every natural
    number is the step after some run. *)
Theorem guide_step_never_negative :
  (forall tourId context st,
     GuideState.isActive (AppState.guideState st) = false ->
     guide_step (startGuide tourId context st) = 0)
  /\ (forall tourId context st,
        GuideState.isActive (AppState.guideState st) = true ->
        startGuide tourId context st = st)
  /\ (forall st, guide_step (endGuide st) = 0)
  /\ (forall st, guide_step (nextGuideStep st) = guide_step st + 1)
  /\ (forall st, guide_step (prevGuideStep st) = Z.max 0 (guide_step st - 1))
  /\ (forall a st, 0 <= guide_step st -> 0 <= guide_step (guide_apply a st))
  /\ (forall l, 0 <= guide_step (guide_run l initialState))
  /\ (forall n, 0 <= n ->
        exists l, guide_step (guide_run l initialState) = n).
Proof.
  repeat split.
  - intros tourId context st. apply startGuide_step.
  - intros tourId context st. apply startGuide_step.
  - apply endGuide_step.
  - apply guide_apply_nonneg.
  - intro l. apply guide_run_nonneg. cbn. lia.
  - intros n Hn. exists (repeat NextGuideStep (Z.to_nat n)).
    rewrite guide_run_next. cbn. lia.
Qed.

(** ** safeLocalStorage *)

Section StorageFacts.

Variable verdict :
  string -> Storage.StoredString -> option Storage.JsError.

(** A write that the quota rejects is never stored by the wrapper: the
    item is left as it was, or replaced by its own pruned form. *)
Lemma setItem_quota_never_stores_value name value w :
  verdict name value = Some Storage.QuotaExceededError ->
  exists w',
    Storage.setItem verdict name value w = (Storage.normal tt, w')
    /\ (Storage.items w' name = Storage.items w name
        \/ exists doc,
             Storage.items w name = Some (Storage.json_text doc)
             /\ snd (Storage.pruneDoc doc) = true
             /\ Storage.items w' name
                = Some (Storage.json_text (fst (Storage.pruneDoc doc)))).
Proof.
  intro Hq.
  unfold Storage.setItem, Storage.try_catch, Storage.localStorage_setItem at 1.
  rewrite Hq. cbn [Storage.isQuotaExceeded].
  unfold Storage.bind at 1, Storage.console_write at 1.
  unfold Storage.cleanup_and_retry, Storage.bind at 1,
    Storage.localStorage_getItem.
  cbn [Storage.items Storage.console].
  destruct (Storage.items w name) as [text |] eqn:Hitem.
  2: { cbn. eexists. split; [reflexivity |]. left. cbn. exact Hitem. }
  destruct text as [doc | raw]; cbn [Storage.truthy].
  - unfold Storage.bind at 1. cbn [Storage.JSON_parse Storage.ret].
    destruct (Storage.pruneDoc doc) as [pruned modified] eqn:Hprune.
    destruct modified.
    + unfold Storage.bind, Storage.console_write,
        Storage.localStorage_setItem, Storage.JSON_stringify.
      cbn [Storage.items Storage.console]. rewrite Hq.
      destruct (verdict name (Storage.json_text pruned)) eqn:Hp.
      * eexists. split; [reflexivity |]. left. cbn. exact Hitem.
      * eexists. split; [reflexivity |]. right. exists doc.
        rewrite Hprune. cbn. rewrite String.eqb_refl. auto.
    + cbn. eexists. split; [reflexivity |]. left. cbn. exact Hitem.
  - destruct (negb (raw =? "")%string).
    + cbn. eexists. split; [reflexivity |]. left. cbn. exact Hitem.
    + cbn. eexists. split; [reflexivity |]. left. cbn. exact Hitem.
Qed.

End StorageFacts.

(** Pruning a list of fifteen removes [ceil (15 * 0.2) = 3] and keeps the
    first twelve; a list of ten is left alone. *)
Example pruneArray_examples :
  Storage.pruneArray (Some (seq 1 15)) false = (Some (seq 1 12), true)
  /\ Storage.pruneArray (Some (seq 1 10)) false = (Some (seq 1 10), false)
  /\ Storage.pruneArray (@None (list nat)) false = (None, false).
Proof. repeat split; vm_compute; reflexivity. Qed.

(** C1, on the code.  The store holds a blob with a log of fifteen
    entries and the quota rejects the write of a blob with sixteen.
    [setItem] returns normally; what it leaves stored is the old blob
    pruned to twelve entries, not the value it was asked to write: the
    retry writes that same value and is rejected as the first attempt
    was, which the wrapper logs and swallows. *)
Theorem setItem_quota_retry_rejected_again :
  let value := Storage.json_text (Sample.doc_with_log 16) in
  let run :=
    Storage.setItem Sample.fifteen_entries_fit Sample.storage_name
                    value (Sample.world_with_log 15) in
  Sample.fifteen_entries_fit Sample.storage_name value
  = Some Storage.QuotaExceededError
  /\ fst run = Storage.normal tt
  /\ Storage.items (snd run) Sample.storage_name
     = Some (Storage.json_text
               (Storage.mkDoc (Some (firstn 12 (Sample.sample_log 15)))
                              (Some []) (Some []) "{}"%string))
  /\ Storage.log_size (Storage.items (snd run) Sample.storage_name)
     = Some 12%nat
  /\ Storage.items (snd run) Sample.storage_name <> Some value
  /\ Storage.console (snd run)
     = [Storage.warn_quota_exceeded; Storage.log_pruning_complete;
        Storage.error_cleanup_failed Storage.QuotaExceededError].
Proof.
  cbv zeta. repeat split; try (vm_compute; reflexivity).
  vm_compute. discriminate.
Qed.

(* ===================================================================== *)
(** * Further properties                                                  *)
(* ===================================================================== *)

(** ** handleScheduleCompletion: the other recurrences *)

Local Open Scope Z_scope.







Lemma update_found_missing scheduleId f l :
  find_schedule scheduleId l = None -> update_found scheduleId f l = l.
Proof.
  unfold find_schedule. induction l as [| s rest IH]; [reflexivity |].
  cbn [find update_found].
  destruct (String.eqb (Schedule.id s) scheduleId); [discriminate |].
  intro H. rewrite (IH H). reflexivity.
Qed.

Lemma update_found_ids scheduleId f l :
  (forall s, Schedule.id (f s) = Schedule.id s) ->
  map Schedule.id (update_found scheduleId f l) = map Schedule.id l.
Proof.
  intro Hid. induction l as [| s rest IH]; [reflexivity |].
  cbn [update_found].
  destruct (String.eqb (Schedule.id s) scheduleId); cbn [map].
  - rewrite Hid. reflexivity.
  - rewrite IH. reflexivity.
Qed.

Lemma update_found_others scheduleId f l s :
  Schedule.id s <> scheduleId ->
  In s l -> In s (update_found scheduleId f l).
Proof.
  intros Hne. induction l as [| x rest IH]; [intros [] |].
  cbn [update_found]. intros [-> | Hin].
  - apply String.eqb_neq in Hne. rewrite Hne. now left.
  - destruct (String.eqb (Schedule.id x) scheduleId); right; auto.
Qed.

(** X2. Completing a schedule touches that schedule alone: the ids of
    the schedules, in order, are kept, every schedule with another id
    stays in the list, and an id that no schedule bears leaves the store
    as it was.  A schedule without recurrence is marked completed and
    keeps its time, whatever now is. *)
Theorem handleScheduleCompletion_frame tz scheduleId now st :
  let st' := handleScheduleCompletion tz scheduleId now st in
  map Schedule.id (AppState.schedules st')
  = map Schedule.id (AppState.schedules st)
  /\ (forall s, Schedule.id s <> scheduleId ->
                In s (AppState.schedules st) ->
                In s (AppState.schedules st'))
  /\ (find_schedule scheduleId (AppState.schedules st) = None ->
      AppState.schedules st' = AppState.schedules st)
  /\ (forall schedule,
        find_schedule scheduleId (AppState.schedules st) = Some schedule ->
        Schedule.recurrence schedule = rec_none ->
        find_schedule scheduleId (AppState.schedules st')
        = Some (Schedule.with_status completed schedule))
  /\ AppState.activityLog st' = AppState.activityLog st
  /\ AppState.currentSession st' = AppState.currentSession st.
Proof.
  cbv zeta. unfold handleScheduleCompletion.
  cbn [AppState.schedules AppState.set_schedules AppState.activityLog
       AppState.currentSession].
  repeat split.
  - apply update_found_ids. intro. apply completeSchedule_id.
  - intros s Hne Hin. now apply update_found_others.
  - apply update_found_missing.
  - intros schedule Hfind Hnone.
    rewrite find_update_found by (intro; apply completeSchedule_id).
    rewrite Hfind. cbn [option_map]. unfold completeSchedule.
    rewrite Hnone. reflexivity.
Qed.

(** ** The custom recurrence *)










(** 11 January 1970 was a Sunday: a reminder for Mondays, Wednesdays and
    Fridays due that day at noon moves to Monday the 12th, also when it
    is completed a month late. *)
Example handleScheduleCompletion_custom_example :
  option_map Schedule.time
    (find_schedule "schedule-3"
       (AppState.schedules
          (handleScheduleCompletion Sample.tz "schedule-3"
             (40 * JsDate.msPerDay)
             (AppState.set_schedules
                [Schedule.mk "schedule-3" act_prayer_pills
                             (10 * JsDate.msPerDay + 12 * 60 * 60 * 1000)
                             scheduled custom (Some [5; 1; 3])]
                initialState))))
  = Some (11 * JsDate.msPerDay + 12 * 60 * 60 * 1000).
Proof. vm_compute. reflexivity. Qed.

(** ** The guide: completed tours *)

Lemma includes_In l x : includes l x = true <-> In x l.
Proof.
  unfold includes. rewrite existsb_exists. split.
  - intros (y & Hin & Heq). apply String.eqb_eq in Heq. now subst.
  - intro Hin. exists x. split; [assumption | apply String.eqb_refl].
Qed.

Lemma endGuide_completedTours st :
  let tours := AppState.completedTours st in
  let tours' := AppState.completedTours (endGuide st) in
  match GuideState.tourId (AppState.guideState st) with
  | Some tid =>
      if truthy_string tid then
        let marker :=
          uniqueTourId_of tid (GuideState.context (AppState.guideState st)) in
        if includes tours marker then tours' = tours
        else tours' = tours ++ [marker]
      else tours' = tours
  | None => tours' = tours
  end.
Proof.
  cbv zeta. unfold endGuide, openVoiceNav, setView.
  destruct (GuideState.tourId (AppState.guideState st)) as [tid |];
    [| reflexivity].
  cbn [AppState.completedTours AppState.set_guideState].
  destruct (truthy_string tid);
    [destruct (includes _ _) |]; destruct (String.eqb tid "main");
    reflexivity.
Qed.

Lemma guide_apply_completedTours a st :
  match a with
  | EndGuide => True
  | _ => AppState.completedTours (guide_apply a st)
         = AppState.completedTours st
  end.
Proof.
  destruct a as [tourId context | | |]; cbn [guide_apply]; try exact I.
  - unfold startGuide.
    destruct (GuideState.isActive (AppState.guideState st)); reflexivity.
  - reflexivity.
  - reflexivity.
Qed.

Lemma guide_apply_NoDup a st :
  NoDup (AppState.completedTours st) ->
  NoDup (AppState.completedTours (guide_apply a st)).
Proof.
  intro Hnd. pose proof (guide_apply_completedTours a st) as Hframe.
  destruct a; try (rewrite Hframe; exact Hnd).
  cbn [guide_apply]. pose proof (endGuide_completedTours st) as Hend.
  cbv zeta in Hend.
  destruct (GuideState.tourId (AppState.guideState st)) as [tid |];
    [| now rewrite Hend].
  destruct (truthy_string tid); [| now rewrite Hend].
  destruct (includes _ _) eqn:Hinc; rewrite Hend; [exact Hnd |].
  apply NoDup_app; [exact Hnd | repeat constructor; intros [] |].
  intros x Hin [<- | []].
  apply includes_In in Hin. congruence.
Qed.

(** X4. Ending a tour records it once.  After [endGuide] on a tour whose
    id is not empty, its marker (the id, or [mentor_] and the agent for a
    mentor tour with an agent) is among the completed tours; the tours
    recorded before stay, in order; and over any run of guide actions
    from the initial store no marker is recorded twice, so a tour run
    again adds nothing. *)
Theorem endGuide_records_tour_once :
  (forall st tid,
     GuideState.tourId (AppState.guideState st) = Some tid ->
     tid <> ""%string ->
     let marker :=
       uniqueTourId_of tid (GuideState.context (AppState.guideState st)) in
     In marker (AppState.completedTours (endGuide st))
     /\ exists added,
          AppState.completedTours (endGuide st)
          = AppState.completedTours st ++ added
          /\ (In marker (AppState.completedTours st) -> added = []))
  /\ (forall l, NoDup (AppState.completedTours (guide_run l initialState)))
  /\ (forall tourId context l,
        let st := guide_run l initialState in
        let once := endGuide (startGuide tourId context st) in
        GuideState.isActive (AppState.guideState st) = false ->
        AppState.completedTours (endGuide (startGuide tourId context once))
        = AppState.completedTours once).
Proof.
  split; [| split].
  - intros st tid Htid Hne marker.
    pose proof (endGuide_completedTours st) as Hend. cbv zeta in Hend.
    rewrite Htid in Hend.
    assert (Ht : truthy_string tid = true).
    { unfold truthy_string. apply negb_true_iff, String.eqb_neq, Hne. }
    rewrite Ht in Hend. fold marker in Hend.
    destruct (includes (AppState.completedTours st) marker) eqn:Hinc;
      rewrite Hend.
    + split; [now apply includes_In |].
      exists []. rewrite app_nil_r. split; [reflexivity | reflexivity].
    + split; [apply in_or_app; right; now left |].
      exists [marker]. split; [reflexivity |].
      intro Hin. apply includes_In in Hin. congruence.
  - intro l. unfold guide_run.
    assert (H : forall st, NoDup (AppState.completedTours st) ->
              NoDup (AppState.completedTours
                       (fold_left (fun s a => guide_apply a s) l st))).
    { induction l as [| a l IH]; intros st Hnd; [exact Hnd |].
      cbn [fold_left]. apply IH, guide_apply_NoDup, Hnd. }
    apply H. constructor.
  - intros tourId context l st once Hinactive.
    assert (Hstart : forall s,
              GuideState.isActive (AppState.guideState s) = false ->
              GuideState.tourId (AppState.guideState (startGuide tourId context s))
              = Some tourId
              /\ GuideState.context
                   (AppState.guideState (startGuide tourId context s))
                 = context
              /\ AppState.completedTours (startGuide tourId context s)
                 = AppState.completedTours s).
    { intros s Hs. unfold startGuide. rewrite Hs. repeat split. }
    assert (Honce_inactive :
              GuideState.isActive (AppState.guideState once) = false).
    { unfold once, endGuide, openVoiceNav, setView.
      destruct (GuideState.tourId _) as [tid |]; [| reflexivity].
      destruct (truthy_string tid);
        [destruct (includes _ _) |]; destruct (String.eqb tid "main");
        reflexivity. }
    destruct (Hstart st Hinactive) as (Ht1 & Hc1 & Hk1).
    destruct (Hstart once Honce_inactive) as (Ht2 & Hc2 & Hk2).
    pose proof (endGuide_completedTours (startGuide tourId context st))
      as Hend1.
    pose proof (endGuide_completedTours (startGuide tourId context once))
      as Hend2.
    cbv zeta in Hend1, Hend2.
    rewrite Ht1, Hc1, Hk1 in Hend1. rewrite Ht2, Hc2, Hk2 in Hend2.
    fold once in Hend1.
    destruct (truthy_string tourId); [| exact Hend2].
    destruct (includes (AppState.completedTours once)
                       (uniqueTourId_of tourId context)) eqn:Hinc2;
      [exact Hend2 |].
    exfalso.
    assert (Hin : In (uniqueTourId_of tourId context)
                     (AppState.completedTours once)).
    { destruct (includes (AppState.completedTours st)
                         (uniqueTourId_of tourId context)) eqn:Hinc1;
        rewrite Hend1.
      - now apply includes_In.
      - apply in_or_app. right. now left. }
    apply includes_In in Hin. congruence.
Qed.

(** The main tour, once ended, sends the user to the dashboard and opens
    the voice navigator; any other tour leaves both alone. *)
Lemma endGuide_main_tour st :
  match GuideState.tourId (AppState.guideState st) with
  | Some tid =>
      if String.eqb tid "main"
      then AppState.activeView (endGuide st) = dashboard
           /\ AppState.isVoiceNavOpen (endGuide st) = true
      else AppState.activeView (endGuide st) = AppState.activeView st
           /\ AppState.isVoiceNavOpen (endGuide st)
              = AppState.isVoiceNavOpen st
  | None => AppState.activeView (endGuide st) = AppState.activeView st
            /\ AppState.isVoiceNavOpen (endGuide st)
               = AppState.isVoiceNavOpen st
  end.
Proof.
  unfold endGuide, openVoiceNav, setView.
  destruct (GuideState.tourId (AppState.guideState st)) as [tid |];
    [| split; reflexivity].
  destruct (truthy_string tid);
    [destruct (includes _ _) |]; destruct (String.eqb tid "main");
    split; reflexivity.
Qed.

(** ** Invariants of the store over every modelled action *)

Section StoreFacts.

Variable orchestrate : EntryData.t -> CoherenceVector -> CoherenceVector * Z.
Variable tz : Z.
Variable summarizeToolResultForEngagement : ToolId -> Any -> option string.
Variable summarizeForProactiveEngagement : list Message.t -> option string.
Variable initialMessageOf : AgentId -> option string.

Lemma logActivity_tail_core entryData now d :
  core (AppState.set_lastActivityTimestamp (Some now)
          (updateStreak tz now (completeQuest entryData now d)))
  = core d
  /\ quest_state (AppState.set_lastActivityTimestamp (Some now)
               (updateStreak tz now (completeQuest entryData now d)))
     = quest_state (completeQuest entryData now d).
Proof.
  destruct d. unfold completeQuest, updateStreak, core, quest_state.
  cbn [AppState.activeQuest AppState.lastActivityTimestamp].
  repeat match goal with
         | |- context [if ?c then _ else _] => destruct c
         | |- context [match ?c with Some _ => _ | None => _ end] => destruct c
         end; split; reflexivity.
Qed.

Lemma logActivity_core entryData now st :
  core (logActivity orchestrate tz entryData now st)
  = (let newVector :=
       fst (orchestrate entryData (AppState.coherenceVector st)) in
     (newVector, calculateUcs newVector,
      Some (Recommendation.agentId (getPicRecommendation newVector)),
      Recommendation.dimensionName (getPicRecommendation newVector),
      firstn 100 (newEntryOf entryData now newVector
                  :: AppState.activityLog st))).
Proof.
  unfold logActivity.
  destruct (orchestrate entryData (AppState.coherenceVector st))
    as [newVector pointsGained].
  rewrite (proj1 (logActivity_tail_core entryData now _)).
  unfold core.
  cbn [AppState.activityLog AppState.coherenceVector AppState.ucs
       AppState.recommendation AppState.recommendationName
       AppState.set_recommendationName AppState.set_recommendation
       AppState.set_ucs AppState.set_coherencePoints
       AppState.set_coherenceVector AppState.set_activityLog fst].
  rewrite truncate_log_firstn. reflexivity.
Qed.

Lemma manual_tail_core d :
  core (AppState.set_proactiveNavContext nav_null
          (AppState.set_reconnectionAgentId None
             (AppState.set_currentSession None d)))
  = core d.
Proof. reflexivity. Qed.

(** [endSession] leaves the core alone or changes it as the
    [logActivity] call it makes does. *)
Lemma endSession_core isManualExit toolResult now st :
  let st' :=
    endSession orchestrate tz summarizeToolResultForEngagement
               summarizeForProactiveEngagement isManualExit toolResult now st in
  core st' = core st
  \/ exists entryData,
       core st' = core (logActivity orchestrate tz entryData now st).
Proof.
  cbv zeta. unfold endSession.
  destruct (AppState.currentSession st) as [session |]; [| now left].
  destruct (shouldOpenVoiceNav session).
  - left. cbv zeta. destruct (proactiveContextOf _ _ _ _ _ _); reflexivity.
  - cbv zeta. rewrite manual_tail_core.
    destruct (CurrentSession.session session) as [agentId ? ? | | | |];
      try now left.
    destruct (AppState.chatHistories st agentId) as [history |]; [| now left].
    destruct (1 <? Z.of_nat (List.length history)); [| now left].
    right. eexists. reflexivity.
Qed.

Lemma endGuide_core st : core (endGuide st) = core st.
Proof.
  unfold endGuide, openVoiceNav, setView.
  destruct (GuideState.tourId (AppState.guideState st)) as [tid |];
    [| reflexivity].
  destruct (truthy_string tid);
    [destruct (includes _ _) |]; destruct (String.eqb tid "main");
    reflexivity.
Qed.

Lemma addInitialMessage_core agentId now st :
  core (addInitialMessage initialMessageOf agentId now st) = core st.
Proof.
  unfold addInitialMessage.
  destruct (initialMessageOf agentId); [| reflexivity].
  destruct (AppState.chatHistories st agentId); [| reflexivity].
  destruct (truthy_string _ && _); reflexivity.
Qed.

(** Every action but [logActivity], [setCoherenceVector] and
    [endSession] leaves the core alone. *)
Lemma store_apply_core a now st :
  match a with
  | LogActivity _ | SetCoherenceVector _ | EndSession _ _ => True
  | _ =>
      core (store_apply orchestrate tz summarizeToolResultForEngagement
                        summarizeForProactiveEngagement initialMessageOf
                        a now st)
      = core st
  end.
Proof.
  destruct a as [| | | scheduleId | g | agentId messages | agentId | | |];
    cbn [store_apply]; try exact I; try reflexivity.
  - destruct g as [tourId context | | |]; cbn [guide_apply]; try reflexivity.
    + unfold startGuide.
      destruct (GuideState.isActive (AppState.guideState st)); reflexivity.
    + apply endGuide_core.
  - apply addInitialMessage_core.
Qed.

Lemma core_consistent st st' :
  core st' = core st -> derived_consistent st -> derived_consistent st'.
Proof.
  unfold core, derived_consistent. intros Hcore (Hu & Hr & Hn).
  injection Hcore as Hv Hu' Hr' Hn' _.
  rewrite Hv, Hu', Hr', Hn'. auto.
Qed.

Lemma logActivity_consistent entryData now st :
  derived_consistent (logActivity orchestrate tz entryData now st).
Proof.
  pose proof (logActivity_core entryData now st) as Hcore.
  cbv zeta in Hcore. unfold core in Hcore.
  injection Hcore as Hv Hu Hr Hn _.
  unfold derived_consistent. rewrite Hv, Hu, Hr, Hn. auto.
Qed.

Lemma store_apply_consistent a now st :
  derived_consistent st ->
  derived_consistent
    (store_apply orchestrate tz summarizeToolResultForEngagement
                 summarizeForProactiveEngagement initialMessageOf a now st).
Proof.
  intro Hc. pose proof (store_apply_core a now st) as Hframe.
  destruct a as [entryData | newVector | isManualExit toolResult
                 | | | | | | |];
    try (eapply core_consistent; [exact Hframe | exact Hc]).
  - apply logActivity_consistent.
  - repeat split.
  - cbn [store_apply].
    destruct (endSession_core isManualExit toolResult now st)
      as [Hsame | (entryData & Hlog)].
    + eapply core_consistent; [exact Hsame | exact Hc].
    + eapply core_consistent; [exact Hlog | apply logActivity_consistent].
Qed.

Lemma store_apply_log_cap a now st :
  (List.length (AppState.activityLog st) <= 100)%nat ->
  (List.length
     (AppState.activityLog
        (store_apply orchestrate tz summarizeToolResultForEngagement
                     summarizeForProactiveEngagement initialMessageOf
                     a now st)) <= 100)%nat.
Proof.
  intro Hcap.
  assert (Hframe : forall s, core s = core st ->
            (List.length (AppState.activityLog s) <= 100)%nat).
  { intros s Hs. pose proof (f_equal snd Hs) as Hl. unfold core in Hl.
    cbn [snd] in Hl. now rewrite Hl. }
  assert (Hlog : forall s entryData,
            core s = core (logActivity orchestrate tz entryData now st) ->
            (List.length (AppState.activityLog s) <= 100)%nat).
  { intros s entryData Hs. rewrite logActivity_core in Hs.
    pose proof (f_equal snd Hs) as Hl. unfold core in Hl.
    cbv zeta in Hl. cbn [snd] in Hl.
    rewrite Hl. apply firstn_le_length. }
  pose proof (store_apply_core a now st) as Hcore.
  destruct a as [entryData | newVector | isManualExit toolResult
                 | | | | | | |];
    try (apply Hframe; exact Hcore).
  - apply (Hlog _ entryData). reflexivity.
  - exact Hcap.
  - cbn [store_apply].
    destruct (endSession_core isManualExit toolResult now st)
      as [Hsame | (entryData & Hl)].
    + now apply Hframe.
    + now apply (Hlog _ entryData).
Qed.

(** X5. After any run of the modelled actions from the initial store,
    the derived scalars agree with the vector: [ucs] is [calculateUcs]
    of it, and the recommended agent and dimension are those
    [getPicRecommendation] gives for it. *)
Theorem store_run_derived_consistent steps :
  derived_consistent
    (store_run orchestrate tz summarizeToolResultForEngagement
               summarizeForProactiveEngagement initialMessageOf
               steps initialState).
Proof.
  unfold store_run.
  assert (H : forall st, derived_consistent st ->
            derived_consistent
              (fold_left
                 (fun s step =>
                    store_apply orchestrate tz
                      summarizeToolResultForEngagement
                      summarizeForProactiveEngagement initialMessageOf
                      (fst step) (snd step) s) steps st)).
  { induction steps as [| step steps IH]; intros st Hc; [exact Hc |].
    cbn [fold_left]. apply IH, store_apply_consistent, Hc. }
  apply H. repeat split.
Qed.

(** X6. After any run of the modelled actions from the initial store,
    the activity log holds at most 100 entries: ending sessions,
    completing schedules, the guide and the chat actions keep the cap
    that [logActivity] enforces. *)
Theorem store_run_log_capped steps :
  let st :=
    store_run orchestrate tz summarizeToolResultForEngagement
              summarizeForProactiveEngagement initialMessageOf
              steps initialState in
  (List.length (AppState.activityLog st) <= 100)%nat.
Proof.
  cbv zeta. unfold store_run.
  assert (H : forall st,
            (List.length (AppState.activityLog st) <= 100)%nat ->
            (List.length
               (AppState.activityLog
                  (fold_left
                     (fun s step =>
                        store_apply orchestrate tz
                          summarizeToolResultForEngagement
                          summarizeForProactiveEngagement initialMessageOf
                          (fst step) (snd step) s) steps st)) <= 100)%nat).
  { induction steps as [| step steps IH]; intros st Hc; [exact Hc |].
    cbn [fold_left]. apply IH, store_apply_log_cap, Hc. }
  apply H. cbn. lia.
Qed.

End StoreFacts.

(** ** Quests and the streak over runs *)

Section QuestStreakFacts.

Variable orchestrate : EntryData.t -> CoherenceVector -> CoherenceVector * Z.
Variable tz : Z.




(** The streak after one more activity: reset, raised by one, or kept,
    which takes a previous activity. *)
Lemma updateStreak_cases now st :
  let streak' := AppState.coherenceStreak (updateStreak tz now st) in
  streak' = 1
  \/ streak' = AppState.coherenceStreak st + 1
  \/ (streak' = AppState.coherenceStreak st
      /\ exists last, AppState.lastActivityTimestamp st = Some last
                      /\ last <> 0).
Proof.
  cbv zeta. unfold updateStreak.
  destruct (AppState.lastActivityTimestamp st) as [last |];
    [| left; reflexivity].
  destruct (Z.eqb_spec last 0); [left; reflexivity |].
  destruct (negb _).
  - destruct (now - last <? _); [right; left | left]; reflexivity.
  - right. right. split; [reflexivity |]. now exists last.
Qed.

Lemma logActivity_lastActivityTimestamp entryData now st :
  AppState.lastActivityTimestamp (logActivity orchestrate tz entryData now st)
  = Some now.
Proof.
  unfold logActivity.
  destruct (orchestrate entryData (AppState.coherenceVector st)).
  reflexivity.
Qed.

Lemma logActivity_streak_inv entryData now n st :
  streak_inv n st ->
  streak_inv (n + 1) (logActivity orchestrate tz entryData now st)
  /\ 1 <= AppState.coherenceStreak
            (logActivity orchestrate tz entryData now st).
Proof.
  intros (Hbounds & Hone).
  assert (H : 1 <= AppState.coherenceStreak
                     (logActivity orchestrate tz entryData now st) <= n + 1).
  { rewrite logActivity_streak_eq.
    destruct (updateStreak_cases now st)
      as [-> | [-> | (-> & last & Hlast & Hnz)]]; try lia.
    specialize (Hone last Hlast Hnz). lia. }
  split; [| lia]. split; [lia |]. intros. lia.
Qed.

Lemma logActivities_streak_inv l : forall st n,
  streak_inv n st ->
  1 <= AppState.coherenceStreak st \/ l <> [] ->
  streak_inv (n + Z.of_nat (List.length l))
             (logActivities orchestrate tz l st)
  /\ 1 <= AppState.coherenceStreak (logActivities orchestrate tz l st).
Proof.
  induction l as [| c l IH]; intros st n Hinv Hpos.
  - cbn [logActivities fold_left List.length].
    replace (n + Z.of_nat 0) with n by lia.
    split; [exact Hinv |]. destruct Hpos; [assumption | congruence].
  - cbn [logActivities fold_left].
    destruct (logActivity_streak_inv (fst c) (snd c) Hinv) as (Hinv' & H1).
    destruct (IH _ _ Hinv' (or_introl H1)) as (Hfinal & Hge).
    split; [| exact Hge].
    replace (n + Z.of_nat (List.length (c :: l)))
      with (n + 1 + Z.of_nat (List.length l))
      by (cbn [List.length]; lia).
    exact Hfinal.
Qed.

Lemma initialState_streak_inv : streak_inv 0 initialState.
Proof.
  split; [cbn; lia |]. intros last Hlast. discriminate Hlast.
Qed.

(** X8. After one or more [logActivity] calls on the initial store, the
    streak is at least 1 and at most the number of calls, whatever the
    times of the calls (the clock may even run backwards). *)
Theorem logActivities_streak_bounds call calls :
  let st :=
    logActivities orchestrate tz (call :: calls) initialState in
  1 <= AppState.coherenceStreak st <= Z.of_nat (List.length (call :: calls)).
Proof.
  cbv zeta. pose proof initialState_streak_inv as Hinit.
  revert Hinit. generalize initialState. intros st0 Hinit.
  assert (Hne : 1 <= AppState.coherenceStreak st0 \/ call :: calls <> [])
    by (right; discriminate).
  pose proof (logActivities_streak_inv Hinit Hne) as Hrun.
  destruct Hrun as [Hinv Hge]. destruct Hinv as [Hb _].
  lia.
Qed.

End QuestStreakFacts.


(** ** endSession: where it leaves the store *)

Section SessionFacts.

Variable orchestrate : EntryData.t -> CoherenceVector -> CoherenceVector * Z.
Variable tz : Z.
Variable summarizeToolResultForEngagement : ToolId -> Any -> option string.
Variable summarizeForProactiveEngagement : list Message.t -> option string.
Variable initialMessageOf : AgentId -> option string.

Lemma manual_tail_fields d :
  let d' :=
    AppState.set_proactiveNavContext nav_null
      (AppState.set_reconnectionAgentId None
         (AppState.set_currentSession None d)) in
  AppState.currentSession d' = None
  /\ AppState.proactiveNavContext d' = nav_null
  /\ AppState.reconnectionAgentId d' = None
  /\ AppState.isVoiceNavOpen d' = AppState.isVoiceNavOpen d.
Proof. repeat split. Qed.

Lemma logActivity_isVoiceNavOpen entryData now st :
  AppState.isVoiceNavOpen (logActivity orchestrate tz entryData now st)
  = AppState.isVoiceNavOpen st.
Proof.
  assert (Htail : forall d,
            AppState.isVoiceNavOpen
              (AppState.set_lastActivityTimestamp (Some now)
                 (updateStreak tz now (completeQuest entryData now d)))
            = AppState.isVoiceNavOpen d).
  { intro d. destruct d. unfold completeQuest, updateStreak.
    cbn [AppState.activeQuest AppState.lastActivityTimestamp].
    repeat match goal with
           | |- context [if ?c then _ else _] => destruct c
           | |- context [match ?c with Some _ => _ | None => _ end] =>
               destruct c
           end; reflexivity. }
  unfold logActivity.
  destruct (orchestrate entryData (AppState.coherenceVector st)).
  rewrite Htail. reflexivity.
Qed.

(** X9. [endSession] does nothing when no session is active.  Otherwise
    it always leaves the store without a current session, and the
    marker of a pending summary never outlives it.  A session that
    returns to the voice navigator ends with the navigator open, the
    vector, scalars and log untouched, and, when the awaited summary is
    rejected, no proactive text; any other session ends with the
    navigator as it was and neither proactive text nor reconnection
    agent. *)
Theorem endSession_closes_session isManualExit toolResult now st :
  let st' :=
    endSession orchestrate tz summarizeToolResultForEngagement
               summarizeForProactiveEngagement isManualExit toolResult now st in
  (AppState.currentSession st = None -> st' = st)
  /\ (forall session,
        AppState.currentSession st = Some session ->
        AppState.currentSession st' = None
        /\ AppState.proactiveNavContext st' <> nav_loading
        /\ (shouldOpenVoiceNav session = true ->
            AppState.isVoiceNavOpen st' = true
            /\ core st' = core st
            /\ (proactiveContextOf summarizeToolResultForEngagement
                  summarizeForProactiveEngagement session isManualExit
                  toolResult st = None ->
                AppState.proactiveNavContext st' = nav_null))
        /\ (shouldOpenVoiceNav session = false ->
            AppState.isVoiceNavOpen st' = AppState.isVoiceNavOpen st
            /\ AppState.proactiveNavContext st' = nav_null
            /\ AppState.reconnectionAgentId st' = None)).
Proof.
  cbv zeta. unfold endSession. split.
  - intros ->. reflexivity.
  - intros session ->.
    assert (Hctx : forall s,
              proactiveContextOf summarizeToolResultForEngagement
                summarizeForProactiveEngagement session isManualExit
                toolResult
                (AppState.set_proactiveNavContext nav_loading
                   (AppState.set_isVoiceNavOpen true
                      (AppState.set_currentSession None s)))
              = proactiveContextOf summarizeToolResultForEngagement
                  summarizeForProactiveEngagement session isManualExit
                  toolResult s).
    { intro s. reflexivity. }
    destruct (shouldOpenVoiceNav session).
    + cbv zeta. rewrite Hctx.
      destruct (proactiveContextOf _ _ _ _ _ _);
        (split; [reflexivity |]); (split; [discriminate |]);
        (split; [| discriminate]); intros _;
        repeat split; try reflexivity; discriminate.
    + cbv zeta.
      match goal with
      | |- context [AppState.set_currentSession None ?d] =>
          destruct (manual_tail_fields d) as (Hs & Hp & Hr & Hv)
      end.
      cbv zeta in Hs, Hp, Hr, Hv. rewrite Hs, Hp, Hr, Hv.
      split; [reflexivity |]. split; [discriminate |].
      split; [discriminate |]. intros _.
      split; [| split; reflexivity].
      destruct (CurrentSession.session session) as [agentId ? ? | | | |];
        try reflexivity.
      destruct (AppState.chatHistories st agentId) as [history |];
        [| reflexivity].
      destruct (1 <? Z.of_nat (List.length history)); [| reflexivity].
      apply logActivity_isVoiceNavOpen.
Qed.

(** ** The greeting of a chat *)

Lemma put_history_same agentId history h :
  put_history agentId history h agentId = Some history.
Proof.
  unfold put_history. destruct (AgentId_eq_dec agentId agentId); congruence.
Qed.

Lemma put_history_other agentId history h other :
  other <> agentId -> put_history agentId history h other = h other.
Proof.
  intro Hne. unfold put_history.
  destruct (AgentId_eq_dec other agentId); congruence.
Qed.



End SessionFacts.

(** ** safeLocalStorage: what holds for every browser *)

Lemma ceil_fifth (n : Z) :
  JsMath.ceil (inject_Z n * (2 # 10)) = (n + 4) / 5.
Proof.
  unfold JsMath.ceil, Qceiling, Qfloor, Qopp, Qmult, inject_Z.
  cbn [Qnum Qden]. change (Z.pos (1 * 10)) with 10.
  pose proof (Z.div_mod (- (n * 2)) 10 ltac:(lia)).
  pose proof (Z.mod_pos_bound (- (n * 2)) 10 ltac:(lia)).
  pose proof (Z.div_mod (n + 4) 5 ltac:(lia)).
  pose proof (Z.mod_pos_bound (n + 4) 5 ltac:(lia)).
  lia.
Qed.

Lemma splice_from_prefix {A} (start : Z) (arr : list A) :
  0 <= start <= Z.of_nat (List.length arr) ->
  Storage.splice_from start arr = firstn (Z.to_nat start) arr
  /\ List.length (Storage.splice_from start arr) = Z.to_nat start.
Proof.
  intro Hr. unfold Storage.splice_from.
  destruct (Z.ltb_spec start 0); [lia |].
  rewrite Z.min_l by lia. split; [reflexivity |].
  rewrite length_firstn. lia.
Qed.

(** X11. [pruneArray] leaves alone a missing array and an array of at
    most ten elements (and the flag with it).  Of a longer array, of
    [n] elements, it keeps the first [n - ceil (n / 5)], which are the
    most recent ones, at least eight and fewer than [n], and raises the
    flag. *)
Theorem pruneArray_keeps_recent {A} (arr : list A) (stateModified : bool) :
  Storage.pruneArray (@None (list A)) stateModified = (None, stateModified)
  /\ ((List.length arr <= 10)%nat ->
      Storage.pruneArray (Some arr) stateModified = (Some arr, stateModified))
  /\ ((10 < List.length arr)%nat ->
      exists kept removed,
        Storage.pruneArray (Some arr) stateModified = (Some kept, true)
        /\ arr = kept ++ removed
        /\ Z.of_nat (List.length removed)
           = (Z.of_nat (List.length arr) + 4) / 5
        /\ (8 <= List.length kept < List.length arr)%nat).
Proof.
  split; [reflexivity | split].
  - intro Hle. unfold Storage.pruneArray.
    destruct (Z.ltb_spec 10 (Z.of_nat (List.length arr))); [lia |].
    reflexivity.
  - intro Hgt. unfold Storage.pruneArray.
    destruct (Z.ltb_spec 10 (Z.of_nat (List.length arr))); [| lia].
    rewrite ceil_fifth.
    set (n := Z.of_nat (List.length arr)) in *.
    assert (Hq : 3 <= (n + 4) / 5 /\ 5 * ((n + 4) / 5) <= n + 4).
    { pose proof (Z.div_mod (n + 4) 5 ltac:(lia)).
      pose proof (Z.mod_pos_bound (n + 4) 5 ltac:(lia)). lia. }
    destruct (@splice_from_prefix A (n - (n + 4) / 5) arr ltac:(lia))
      as (Hkept & Hlen).
    exists (Storage.splice_from (n - (n + 4) / 5) arr),
           (skipn (Z.to_nat (n - (n + 4) / 5)) arr).
    split; [reflexivity |]. split; [| split].
    + rewrite Hkept. symmetry. apply firstn_skipn.
    + rewrite length_skipn. lia.
    + rewrite Hlen. lia.
Qed.

Lemma pruneArray_keeps_recent_witness :
  (10 < List.length (seq 1 15))%nat
  /\ exists kept removed,
       Storage.pruneArray (Some (seq 1 15)) false = (Some kept, true)
       /\ seq 1 15 = kept ++ removed
       /\ Z.of_nat (List.length removed)
          = (Z.of_nat (List.length (seq 1 15)) + 4) / 5
       /\ (8 <= List.length kept < List.length (seq 1 15))%nat.
Proof.
  assert (H : (10 < List.length (seq 1 15))%nat) by (cbn; lia).
  split; [exact H |].
  exact (proj2 (proj2 (@pruneArray_keeps_recent nat (seq 1 15) false)) H).
Defined.

Section StorageTotal.

Variable verdict :
  string -> Storage.StoredString -> option Storage.JsError.

(** X12. [setItem] never throws, whatever the browser does: it returns
    normally from every store and for every value.  It never touches an
    item under another name.  A write the browser accepts is stored and
    logs nothing; a write rejected for a reason other than the quota
    leaves the item as it was and is logged once. *)
Theorem setItem_never_throws name value w :
  exists w',
    Storage.setItem verdict name value w = (Storage.normal tt, w')
    /\ (forall k, k <> name -> Storage.items w' k = Storage.items w k)
    /\ (verdict name value = None ->
        Storage.items w' name = Some value
        /\ Storage.console w' = Storage.console w)
    /\ (forall e, verdict name value = Some e ->
                  Storage.isQuotaExceeded e = false ->
                  Storage.items w' name = Storage.items w name
                  /\ Storage.console w'
                     = Storage.console w ++ [Storage.error_write_failed e]).
Proof.
  unfold Storage.setItem, Storage.try_catch,
    Storage.localStorage_setItem at 1.
  destruct (verdict name value) as [err |] eqn:Hv.
  2: { eexists. split; [reflexivity |]. cbn. split; [| split].
       - intros k Hne. apply String.eqb_neq in Hne. now rewrite Hne.
       - intros _. now rewrite String.eqb_refl.
       - intros e0 He0. discriminate He0. }
  destruct (Storage.isQuotaExceeded err) eqn:Hquota.
  2: { eexists. split; [reflexivity |]. cbn. split; [| split].
       - reflexivity.
       - intro H. discriminate H.
       - intros e0 He0 _. injection He0 as <-. split; reflexivity. }
  unfold Storage.bind at 1, Storage.console_write at 1.
  unfold Storage.cleanup_and_retry, Storage.bind at 1,
    Storage.localStorage_getItem.
  cbn [Storage.items Storage.console].
  assert (Hrest : forall w' : Storage.World,
            (forall k, k <> name -> Storage.items w' k = Storage.items w k) ->
            (forall k, k <> name -> Storage.items w' k = Storage.items w k)
            /\ (Some err = None ->
                Storage.items w' name = Some value
                /\ Storage.console w' = Storage.console w)
            /\ (forall e0, Some err = Some e0 ->
                  Storage.isQuotaExceeded e0 = false ->
                  Storage.items w' name = Storage.items w name
                  /\ Storage.console w'
                     = Storage.console w ++ [Storage.error_write_failed e0])).
  { intros w' H0. split; [exact H0 | split].
    - intro H. discriminate H.
    - intros e0 He0 Hq. injection He0 as <-. congruence. }
  destruct (Storage.items w name) as [text |] eqn:Hitem.
  2: { cbn. eexists. split; [reflexivity |]. apply Hrest. reflexivity. }
  destruct text as [doc | raw]; cbn [Storage.truthy].
  - unfold Storage.bind at 1. cbn [Storage.JSON_parse Storage.ret].
    destruct (Storage.pruneDoc doc) as [pruned modified].
    destruct modified.
    + unfold Storage.bind, Storage.console_write,
        Storage.localStorage_setItem, Storage.JSON_stringify.
      cbn [Storage.items Storage.console]. rewrite Hv.
      destruct (verdict name (Storage.json_text pruned)).
      * eexists. split; [reflexivity |]. apply Hrest. reflexivity.
      * eexists. split; [reflexivity |]. apply Hrest. cbn.
        intros k Hne. apply String.eqb_neq in Hne. now rewrite Hne.
    + cbn. eexists. split; [reflexivity |]. apply Hrest. reflexivity.
  - destruct (negb (raw =? "")%string).
    + cbn. eexists. split; [reflexivity |]. apply Hrest. reflexivity.
    + cbn. eexists. split; [reflexivity |]. apply Hrest. reflexivity.
Qed.

End StorageTotal.

(** ** calculateUcs: monotonicity *)

Local Open Scope Q_scope.

Lemma spec_clamp_monotone (x y : Q) :
  x <= y -> UcsSpec.clamp x 0 100 <= UcsSpec.clamp y 0 100.
Proof.
  intro Hxy. unfold UcsSpec.clamp.
  destruct (Qle_bool_spec x 0), (Qle_bool_spec y 0);
    try destruct (Qle_bool_spec 100 x); try destruct (Qle_bool_spec 100 y);
    lra.
Qed.

Lemma round_monotone (x y : Q) : x <= y -> (JsMath.round x <= JsMath.round y)%Z.
Proof.
  intro Hxy. unfold JsMath.round. apply Qfloor_resp_le. lra.
Qed.

Lemma calculateUcs_score (v : CoherenceVector) :
  calculateUcs v = UcsSpec.score v.
Proof.
  unfold calculateUcs, UcsSpec.score, JsMath.round.
  apply Qfloor_comp.
  apply Qplus_comp; [| reflexivity].
  apply clamp_agrees, finalScore_agrees.
Qed.

Lemma Qdiv_le_const (x y c : Q) : 0 < c -> x <= y -> x / c <= y / c.
Proof.
  intros Hc Hxy. unfold Qdiv. apply Qmult_le_compat_r; [exact Hxy |].
  apply Qlt_le_weak, Qinv_lt_0_compat, Hc.
Qed.

Lemma score_le (a b f : Q) :
  0 <= f -> a <= b -> (a * f + 100) / 2 <= (b * f + 100) / 2.
Proof.
  intros Hf Hab.
  assert (Hm : a * f <= b * f) by (apply Qmult_le_compat_r; assumption).
  apply Qdiv_le_const; lra.
Qed.

Lemma factor_nonneg (v : CoherenceVector) :
  0 <= alinhamentoPAC v -> 0 <= UcsSpec.factor v.
Proof.
  intro Hpac. unfold UcsSpec.factor.
  assert (0 <= alinhamentoPAC v / 100)
    by (apply Qle_shift_div_l; lra).
  lra.
Qed.

(** The mean of a field over the dimensions follows the field of one
    dimension. *)
Lemma mean7_vset_le (f : DimensionState -> Q) v k x y :
  f x <= f y -> UcsSpec.mean7 f (vset v k x) <= UcsSpec.mean7 f (vset v k y).
Proof.
  intro Hxy. unfold UcsSpec.mean7. apply Qdiv_le_const; [lra |].
  destruct k; cbn; lra.
Qed.

(** X13. With a non-negative alignment, the score does not decrease when
    the coherence of one dimension increases, and does not increase when
    the dissonance of one dimension increases, everything else being
    kept. *)
Theorem calculateUcs_monotone (v : CoherenceVector) (k : DimensionKey)
    (c c' d d' : Q) :
  0 <= alinhamentoPAC v ->
  c <= c' -> d <= d' ->
  (calculateUcs (vset v k (mkDim c d))
   <= calculateUcs (vset v k (mkDim c' d)))%Z
  /\ (calculateUcs (vset v k (mkDim c d'))
      <= calculateUcs (vset v k (mkDim c d)))%Z.
Proof.
  intros Hpac Hc Hd. rewrite !calculateUcs_score. unfold UcsSpec.score.
  assert (Hf : forall x, 0 <= UcsSpec.factor (vset v k x)).
  { intro x. apply factor_nonneg. destruct k; exact Hpac. }
  assert (Hsame : forall x y,
            UcsSpec.factor (vset v k x) = UcsSpec.factor (vset v k y)).
  { intros x y. destruct k; reflexivity. }
  split; apply round_monotone, spec_clamp_monotone.
  - rewrite (Hsame (mkDim c d) (mkDim c' d)).
    apply score_le; [apply Hf |]. unfold UcsSpec.netCoherence.
    pose proof (@mean7_vset_le coerencia v k (mkDim c d) (mkDim c' d) Hc).
    pose proof (@mean7_vset_le dissonancia v k (mkDim c d) (mkDim c' d)
                  ltac:(cbn; lra)).
    pose proof (@mean7_vset_le dissonancia v k (mkDim c' d) (mkDim c d)
                  ltac:(cbn; lra)).
    lra.
  - rewrite (Hsame (mkDim c d') (mkDim c d)).
    apply score_le; [apply Hf |]. unfold UcsSpec.netCoherence.
    pose proof (@mean7_vset_le dissonancia v k (mkDim c d) (mkDim c d') Hd).
    pose proof (@mean7_vset_le coerencia v k (mkDim c d) (mkDim c d')
                  ltac:(cbn; lra)).
    pose proof (@mean7_vset_le coerencia v k (mkDim c d') (mkDim c d)
                  ltac:(cbn; lra)).
    lra.
Qed.

Lemma calculateUcs_monotone_witness :
  (0 <= alinhamentoPAC initialVector
   /\ 50 <= 90 /\ 20 <= 70)
  /\ (calculateUcs (vset initialVector K_emocional (mkDim 50 20))
      <= calculateUcs (vset initialVector K_emocional (mkDim 90 20)))%Z
  /\ (calculateUcs (vset initialVector K_emocional (mkDim 50 70))
      <= calculateUcs (vset initialVector K_emocional (mkDim 50 20)))%Z.
Proof.
  assert (H1 : 0 <= alinhamentoPAC initialVector) by (cbn; unfold Qle; cbn; lia).
  assert (H2 : 50 <= 90) by (unfold Qle; cbn; lia).
  assert (H3 : 20 <= 70) by (unfold Qle; cbn; lia).
  split; [repeat split; assumption |].
  exact (@calculateUcs_monotone initialVector K_emocional 50 90 20 70
           H1 H2 H3).
Defined.

(** ** The data of the evolution chart *)

Local Open Scope Z_scope.







(** The log of the store is most recent first; the chart turns it
    round, without the entry that is older than the seven days. *)
Example chartData_example :
  let entry_on day :=
    ActivityLogEntry.mk (activity_ (day * JsDate.msPerDay))
                        (day * JsDate.msPerDay) COHERENCE initialVector
                        (tool_usage meditation "{}"%string) in
  chartData period_7d (10 * JsDate.msPerDay)
            [entry_on 9; entry_on 7; entry_on 5; entry_on 1]
  = [ChartPoint.mk (5 * JsDate.msPerDay) 66;
     ChartPoint.mk (7 * JsDate.msPerDay) 66;
     ChartPoint.mk (9 * JsDate.msPerDay) 66].
Proof. vm_compute. reflexivity. Qed.

(** ** getFriendlyErrorMessage *)

Section ClassifierFacts.

Variable toLowerCase : string -> string.



End ClassifierFacts.

(** Some errors of the service, read with [toLowerCase] on the letters A
    to Z. *)
Example getFriendlyErrorMessage_examples :
  let friendly e :=
    ErrorUtils.getFriendlyErrorMessage ErrorUtils.lower e "padrão" in
  friendly (ErrorUtils.error_object "[429] RESOURCE_EXHAUSTED after Network Error")
  = ErrorUtils.networkError
  /\ friendly (ErrorUtils.error_object "got status: 429 Too Many Requests")
     = ErrorUtils.quotaExceeded
  /\ friendly (ErrorUtils.string_value "permission denied for Microphone")
     = "padrão"%string
  /\ friendly (ErrorUtils.object_value (Some "400 Invalid argument"%string) None)
     = ErrorUtils.badRequest
  /\ friendly (ErrorUtils.object_value None (Some "[object Object]"%string))
     = "padrão"%string
  /\ friendly ErrorUtils.nullish = "padrão"%string.
Proof. cbv zeta. repeat split; vm_compute; reflexivity. Qed.

(** ** getPrayerSuggestions *)

Local Open Scope Q_scope.

(** X16. The prayer suggestions are four themes without repetition: the
    two themes of a dimension of greatest dissonance among purpose,
    emotional, somatic and resources, then the two themes of a dimension
    of greatest dissonance among the other three. *)
Theorem getPrayerSuggestions_top_two (vector : CoherenceVector) :
  exists top second,
    In top (prayer_suggestions vector)
    /\ In second (prayer_suggestions vector)
    /\ Suggestion.key top <> Suggestion.key second
    /\ getPrayerSuggestions vector
       = Suggestion.themes top ++ Suggestion.themes second
    /\ NoDup (getPrayerSuggestions vector)
    /\ (forall s, In s (prayer_suggestions vector) ->
                  Suggestion.value s <= Suggestion.value top)
    /\ (forall s, In s (prayer_suggestions vector) ->
                  Suggestion.key s <> Suggestion.key top ->
                  Suggestion.value s <= Suggestion.value second).
Proof.
  unfold getPrayerSuggestions, prayer_suggestions, sort_suggestions.
  cbn [fold_right insert_suggestion Suggestion.value].
  repeat match goal with
         | |- context [Qle_bool ?a ?b] =>
             destruct (Qle_bool_spec a b);
             cbn [insert_suggestion Suggestion.value]
         end;
    try lra;
    cbn [firstn];
    match goal with
    | |- context [fold_left _ [?t; ?s] []] =>
        exists t, s
    end;
    (split; [cbn; tauto |]); (split; [cbn; tauto |]);
    (split; [discriminate |]);
    (split; [vm_compute; reflexivity |]);
    (split; [vm_compute; repeat constructor; cbn; intuition discriminate |]);
    (split;
     [ intros s [<- | [<- | [<- | [<- | []]]]]; cbn [Suggestion.value]; lra
     | intros s [<- | [<- | [<- | [<- | []]]]] Hk;
       cbn [Suggestion.value Suggestion.key] in *; try congruence; lra ]).
Qed.

(** The default vector is most dissonant in its resources, then in the
    emotional dimension. *)
Example getPrayerSuggestions_initialVector :
  getPrayerSuggestions initialVector
  = ["abertura de caminhos financeiros"; "sabedoria para prosperar";
     "paz para um coração ansioso"; "cura emocional"]%string.
Proof. vm_compute. reflexivity. Qed.
